(** * pdf_to_epub: the text-structuring pipeline of [PDFToEPUBConverter]

    A shallow embedding of [src/pdf_to_epub.py]: the line merger
    ([_merge_split_lines]), the chapter boundary detector
    ([_detect_chapters]), the paragraph segmenter ([_detect_paragraphs]),
    the chapter renderer ([_add_chapters_to_epub]), the numeral normalizer
    ([_convert_line_if_roman], [_roman_to_int]) and the two heading
    patterns.

    A Python [str] is a list of code points.  The character classes and
    the case conversions below (white space, line boundaries, digits,
    word characters, upper and lower case) are Python's on the ASCII
    range; every other code point is a character without a special role.
    A compiled pattern is a syntax tree of the fragment of [re] that the
    source uses, and [rmatch] is a backtracking matcher for it. *)

From Stdlib Require Import Ascii String List ZArith Lia Bool Arith.
From Stdlib Require Import DecimalString DecimalPos.
Import ListNotations.

Set Implicit Arguments.

(** ** Python strings *)

Module PyStr.

Definition str := list ascii.

(** A string literal of the source. *)
Definition py (s : string) : str := list_ascii_of_string s.

Definition code (c : ascii) : N := N_of_ascii c.

Definition between (lo hi : N) (c : ascii) : bool :=
  (lo <=? code c)%N && (code c <=? hi)%N.

Definition NL : ascii := ascii_of_N 10.
Definition CR : ascii := ascii_of_N 13.
Definition SP : ascii := ascii_of_N 32.

(** [str.isspace] on one character: tab, the line boundaries, the four
    separators 0x1c..0x1f and the space. *)
Definition is_space (c : ascii) : bool :=
  between 9 13 c || between 28 32 c.

(** The characters at which [str.splitlines] cuts. *)
Definition is_linebreak (c : ascii) : bool :=
  between 10 13 c || between 28 30 c.

Definition is_digit (c : ascii) : bool := between 48 57 c.
Definition is_upper (c : ascii) : bool := between 65 90 c.
Definition is_lower (c : ascii) : bool := between 97 122 c.

(** A word character of [re]: letter, digit or underscore. *)
Definition is_word (c : ascii) : bool :=
  is_digit c || is_upper c || is_lower c || (code c =? 95)%N.

Definition to_upper (c : ascii) : ascii :=
  if is_lower c then ascii_of_N (code c - 32) else c.

Definition to_lower (c : ascii) : ascii :=
  if is_upper c then ascii_of_N (code c + 32) else c.

Definition eqc (a b : ascii) : bool := Ascii.eqb a b.

(** Equality of two characters up to case. *)
Definition same_letter (a b : ascii) : bool :=
  Ascii.eqb (to_lower a) (to_lower b).

Fixpoint eqs (a b : str) : bool :=
  match a, b with
  | [], [] => true
  | x :: a', y :: b' => eqc x y && eqs a' b'
  | _, _ => false
  end.

(** [s.upper()], [s.lower()] *)
Definition upper (s : str) : str := map to_upper s.
Definition lower (s : str) : str := map to_lower s.

(** [s.lstrip()], [s.rstrip()], [s.strip()] *)
Fixpoint lstrip (s : str) : str :=
  match s with
  | c :: r => if is_space c then lstrip r else s
  | [] => []
  end.

Definition rstrip (s : str) : str := rev (lstrip (rev s)).

Definition strip (s : str) : str := rstrip (lstrip s).

(** Truth value of a string: non-empty. *)
Definition nonempty (s : str) : bool :=
  match s with [] => false | _ :: _ => true end.

(** [s.split()]: the maximal runs of non-space characters. *)
Fixpoint split_from (cur : str) (s : str) : list str :=
  match s with
  | [] => match cur with [] => [] | _ => [rev cur] end
  | c :: r =>
      if is_space c
      then match cur with
           | [] => split_from [] r
           | _ => rev cur :: split_from [] r
           end
      else split_from (c :: cur) r
  end.

Definition split (s : str) : list str := split_from [] s.

(** [s.splitlines()]: a line ends at a line boundary, CR LF counts as
    one boundary, and a final boundary opens no further line. *)
Fixpoint splitlines (s : str) : list str :=
  match s with
  | [] => []
  | c :: r =>
      if is_linebreak c
      then [] :: (if eqc c CR
                  then match r with
                       | d :: r' => if eqc d NL then splitlines r' else splitlines r
                       | [] => splitlines r
                       end
                  else splitlines r)
      else match splitlines r with
           | [] => [[c]]
           | l :: ls => (c :: l) :: ls
           end
  end.

(** [sep.join(l)] *)
Fixpoint join (sep : str) (l : list str) : str :=
  match l with
  | [] => []
  | [x] => x
  | x :: rest => x ++ sep ++ join sep rest
  end.

(** [s.startswith(p)], [s.endswith(p)], [s.endswith((p1, ..., pn))] *)
Fixpoint startswith (s p : str) {struct p} : bool :=
  match p, s with
  | [], _ => true
  | x :: p', y :: s' => eqc x y && startswith s' p'
  | _ :: _, [] => false
  end.

Definition endswith (s p : str) : bool := startswith (rev s) (rev p).

Definition endswith_any (s : str) (ps : list str) : bool :=
  existsb (endswith s) ps.

(** [needle in hay] *)
Fixpoint contains (hay needle : str) : bool :=
  startswith hay needle ||
  match hay with
  | [] => false
  | _ :: hay' => contains hay' needle
  end.

(** [s.isnumeric()] *)
Definition isnumeric (s : str) : bool := nonempty s && forallb is_digit s.

(** [int(s)] on a string of decimal digits, the only strings that reach
    it here: every call is guarded by [isnumeric]. *)
Definition int (s : str) : Z :=
  fold_left (fun acc c => 10 * acc + Z.of_N (code c - 48))%Z s 0%Z.

(** [str(n)] for an integer. *)
Definition str_of_int (n : Z) : str :=
  list_ascii_of_string (NilZero.string_of_int (Z.to_int n)).

(** [lines[a:b]] for [0 <= a], [0 <= b]. *)
Definition slice (A : Type) (l : list A) (a b : nat) : list A :=
  firstn (b - a) (skipn a l).

End PyStr.
Import PyStr.

(** ** The fragment of [re] that the patterns use *)

Module Regex.

(** One member of a bracketed set: a literal character, [\s] or [\d]. *)
Inductive citem :=
| IChar (c : ascii)
| ISpace
| IDigit.

(** What stands for one character: [.] or a set. *)
Inductive cls :=
| Dot
| OneOf (items : list citem).

(** The patterns quantify single characters only, so [+] and [{lo,hi}]
    take a class. *)
Inductive regex :=
| Eps
| Never
| Chr (a : cls)
| Plus (a : cls)
| Rep (a : cls) (lo hi : nat)
| Seq (r1 r2 : regex)
| Alt (r1 r2 : regex)
| Opt (r : regex)
| AheadB
| Bol
| Eol.

Record pattern := Pattern { body : regex; ignorecase : bool }.

Definition item_match (ic : bool) (i : citem) (c : ascii) : bool :=
  match i with
  | IChar x => if ic then same_letter c x else eqc c x
  | ISpace => is_space c
  | IDigit => is_digit c
  end.

Definition cls_match (ic : bool) (a : cls) (c : ascii) : bool :=
  match a with
  | Dot => negb (eqc c NL)
  | OneOf items => existsb (fun i => item_match ic i c) items
  end.

(** [\b]: exactly one of the characters before and after the position is
    a word character. *)
Definition wordy (o : option ascii) : bool :=
  match o with Some c => is_word c | None => false end.

Definition boundary (prev : option ascii) (s : str) : bool :=
  xorb (wordy prev) (wordy (hd_error s)).

(** [$] without MULTILINE: the end, or just before a final newline. *)
Definition at_end (s : str) : bool :=
  match s with
  | [] => true
  | [c] => eqc c NL
  | _ => false
  end.

Definition at_start (prev : option ascii) : bool :=
  match prev with None => true | Some _ => false end.

(** A backtracking matcher: [k] is what remains to be matched, given the
    character before the position and the rest of the subject. *)
Definition cont := option ascii -> str -> bool.

Fixpoint plus_from (ic : bool) (a : cls) (s : str) (k : cont) : bool :=
  match s with
  | c :: r =>
      if cls_match ic a c
      then (if plus_from ic a r k then true else k (Some c) r)
      else false
  | [] => false
  end.

Fixpoint rep_from (ic : bool) (a : cls) (lo hi : nat)
    (prev : option ascii) (s : str) (k : cont) : bool :=
  let stop := if lo =? 0 then k prev s else false in
  match hi with
  | 0 => stop
  | S hi' =>
      match s with
      | c :: r =>
          if cls_match ic a c
          then (if rep_from ic a (pred lo) hi' (Some c) r k then true else stop)
          else stop
      | [] => stop
      end
  end.

Fixpoint run (ic : bool) (r : regex) (prev : option ascii) (s : str)
    (k : cont) : bool :=
  match r with
  | Eps => k prev s
  | Never => false
  | Chr a =>
      match s with
      | c :: s' => if cls_match ic a c then k (Some c) s' else false
      | [] => false
      end
  | Plus a => plus_from ic a s k
  | Rep a lo hi => rep_from ic a lo hi prev s k
  | Seq r1 r2 => run ic r1 prev s (fun p s' => run ic r2 p s' k)
  | Alt r1 r2 => if run ic r1 prev s k then true else run ic r2 prev s k
  | Opt r1 => if run ic r1 prev s k then true else k prev s
  | AheadB => if boundary prev s then k prev s else false
  | Bol => if at_start prev then k prev s else false
  | Eol => if at_end s then k prev s else false
  end.

(** [p.match(s)]: a match that starts at the beginning of [s]. *)
Definition rmatch (p : pattern) (s : str) : bool :=
  run (ignorecase p) (body p) None s (fun _ _ => true).

(** A literal word, and an alternation of many branches. *)
Definition lit (w : str) : regex :=
  fold_right (fun c r => Seq (Chr (OneOf [IChar c])) r) Eps w.

Definition alts (rs : list regex) : regex := fold_right Alt Never rs.

Definition chars (w : str) : list citem := map IChar w.

End Regex.
Import Regex.

(** ** The converter *)

(** [_generate_textual_numbers] *)
Definition units : list str :=
  map py ["ONE"; "TWO"; "THREE"; "FOUR"; "FIVE"; "SIX"; "SEVEN"; "EIGHT"; "NINE"]%string.

Definition teens : list str :=
  map py ["TEN"; "ELEVEN"; "TWELVE"; "THIRTEEN"; "FOURTEEN"; "FIFTEEN";
          "SIXTEEN"; "SEVENTEEN"; "EIGHTEEN"; "NINETEEN"]%string.

Definition tens : list str :=
  map py ["TWENTY"; "THIRTY"; "FORTY"; "FIFTY"; "SIXTY"; "SEVENTY"; "EIGHTY";
          "NINETY"]%string.

Definition below_hundred : list str :=
  units ++ teens ++
  flat_map (fun ten =>
    ten :: flat_map (fun unit => [ten ++ py "-" ++ unit; ten ++ py " " ++ unit]) units)
    tens.

Definition hundreds : list str :=
  flat_map (fun unit =>
    (unit ++ py " HUNDRED")
      :: map (fun number => unit ++ py " HUNDRED AND " ++ number) below_hundred)
    units.

Definition _generate_textual_numbers : list str :=
  below_hundred ++ hundreds ++ [py "ONE THOUSAND"].

(** [_build_chapter_pattern]: the five branches between [^(?:] and [)$],
    in the order of the source. *)
Definition digits13 : regex := Seq (Rep (OneOf [IDigit]) 1 3) AheadB.
Definition roman_cls : cls := OneOf (chars (py "IVXLCDM")).
Definition roman_run : regex := Plus roman_cls.
Definition spaces : regex := Plus (OneOf [ISpace]).
Definition separators : regex := Plus (OneOf (chars (py ":-") ++ [ISpace])).

Definition numeral_alt : regex :=
  Alt digits13 (Alt roman_run (alts (map lit _generate_textual_numbers))).

Definition chapter_head (word : str) : regex :=
  Seq (lit word) (Seq spaces numeral_alt).

Definition chapter_branches : regex :=
  Alt (chapter_head (py "Chapter"))
    (Alt (chapter_head (py "CHAPTER"))
    (Alt (Seq (chapter_head (py "CHAPTER")) (Opt (Seq separators (Plus Dot))))
    (Alt roman_run digits13))).

Definition _build_chapter_pattern : pattern :=
  Pattern (Seq Bol (Seq chapter_branches Eol)) true.

(** [_build_prologue_epilogue_pattern] *)
Definition front_matter_words : list str :=
  map py ["PROLOGUE"; "EPILOGUE"; "PREFACE"; "FOREWORD"; "INTRODUCTION";
          "AFTERWORD"; "POSTSCRIPT"]%string.

Definition _build_prologue_epilogue_pattern : pattern :=
  Pattern (Seq Bol (Seq (alts (map lit front_matter_words)) Eol)) true.

Definition chapter_pattern : pattern := _build_chapter_pattern.
Definition prologue_epilogue_pattern : pattern := _build_prologue_epilogue_pattern.

(** [_strip_tags]: [re.sub(r"<[^>]*>", "", text)] deletes every stretch
    from a [<] to the first [>] after it; a [<] with no [>] after it
    stays, with all that follows. [pending] holds the stretch read since
    an unclosed [<], last character first. *)
Fixpoint strip_tags_from (pending : option str) (text : str) : str :=
  match text with
  | [] => match pending with Some b => rev b | None => [] end
  | c :: r =>
      match pending with
      | None =>
          if eqc c "<"%char then strip_tags_from (Some [c]) r
          else c :: strip_tags_from None r
      | Some b =>
          if eqc c ">"%char then strip_tags_from None r
          else strip_tags_from (Some (c :: b)) r
      end
  end.

Definition _strip_tags (text : str) : str := strip_tags_from None text.

(** [_roman_to_int] *)
Definition roman_map (c : ascii) : Z :=
  if eqc c "I" then 1 else if eqc c "V" then 5 else if eqc c "X" then 10
  else if eqc c "L" then 50 else if eqc c "C" then 100
  else if eqc c "D" then 500 else if eqc c "M" then 1000 else 0.

Definition roman_step (st : Z * Z) (char : ascii) : Z * Z :=
  let '(value, prev_value) := st in
  let current_value := roman_map char in
  if (current_value <? prev_value)%Z
  then ((value - current_value)%Z, current_value)
  else ((value + current_value)%Z, current_value).

Definition _roman_to_int (roman : str) : Z :=
  fst (fold_left roman_step (rev roman) (0%Z, 0%Z)).

(** [_convert_line_if_roman] returns an [int] or the line it was given. *)
Inductive pyval :=
| VInt (n : Z)
| VStr (s : str).

Definition roman_pattern : pattern :=
  Pattern (Seq Bol (Seq roman_run Eol)) true.

Definition _convert_line_if_roman (line : str) : pyval :=
  let stripped_line := upper (strip line) in
  if rmatch roman_pattern stripped_line
  then VInt (_roman_to_int stripped_line)
  else VStr line.

(** [str(v)] *)
Definition str_of (v : pyval) : str :=
  match v with
  | VInt n => str_of_int n
  | VStr s => s
  end.

(** Whether a line, already stripped of white space and markup, is a
    heading for [_merge_split_lines]. *)
Definition is_heading (stripped_line_wo_tags : str) : bool :=
  if rmatch chapter_pattern stripped_line_wo_tags then true
  else rmatch prologue_epilogue_pattern stripped_line_wo_tags.

(** The suffixes after which [_merge_split_lines] starts a new line. *)
Definition terminals : list str :=
  map (fun c => [c])
    ["."; ":"; "!"; "?"; NL; ascii_of_N 34; "'"; ")"; "]"; "}"]%char.

(** [_merge_split_lines]: one turn of the loop, on the pair of
    [merged_text] and [prev_is_chapter]. *)
Definition merge_step (st : str * bool) (line : str) : str * bool :=
  let '(merged_text, prev_is_chapter) := st in
  let stripped_line := strip line in
  if negb (nonempty stripped_line) then st
  else
    let stripped_line_wo_tags := _strip_tags stripped_line in
    if is_heading stripped_line_wo_tags then
      let merged_text :=
        if nonempty merged_text then merged_text ++ [NL] else merged_text in
      (merged_text ++ [NL] ++ stripped_line ++ [NL], true)
    else if nonempty merged_text && negb (endswith_any merged_text terminals) then
      (merged_text ++ [SP] ++ stripped_line, false)
    else
      let merged_text :=
        if nonempty merged_text then merged_text ++ [NL] else merged_text in
      let merged_text := merged_text ++ stripped_line in
      let merged_text :=
        if (length (split stripped_line_wo_tags) =? 1) && prev_is_chapter
        then merged_text ++ [NL] else merged_text in
      (merged_text, false).

Definition merge_from (st : str * bool) (lines : list str) : str * bool :=
  fold_left merge_step lines st.

(** [merged_text] and [prev_is_chapter] before the loop. *)
Definition merge_init : str * bool := ([], false).

Definition _merge_split_lines (lines : list str) : str :=
  fst (merge_from merge_init lines).

(** Truth value of a list: non-empty. *)
Definition nonempty_list (A : Type) (l : list A) : bool :=
  match l with [] => false | _ :: _ => true end.

(** [_detect_chapters]: the variables of the scanning loop. *)
Record scan_state := ScanState {
  start_indices : list nat;
  original_chapter_names : list str;
  prev_is_chapter : bool;
  chapter_number : Z;
  consecutive_chapter_index : nat
}.

Definition scan_init : scan_state := ScanState [] [] false 1 0.

(** The subtitle look-ahead: the first non-blank line among [js] is added
    to the name when it has at most two words. *)
Fixpoint with_subtitle (lines : list str) (js : list nat) (chapter_name : str) : str :=
  match js with
  | [] => chapter_name
  | j :: js' =>
      let lj := nth j lines [] in
      if nonempty (strip lj) then
        let next_line := strip lj in
        let words := split (_strip_tags next_line) in
        if length words <=? 2 then chapter_name ++ [SP] ++ next_line
        else chapter_name
      else with_subtitle lines js' chapter_name
  end.

(** [range(a, b)] *)
Definition range (a b : nat) : list nat := seq a (b - a).

(** One turn of the scanning loop at line [i]. *)
Definition scan_step (lines : list str) (i : nat) (line : str)
    (st : scan_state) : scan_state :=
  let clean_line := _strip_tags (strip line) in
  if negb (nonempty clean_line) then st
  else if rmatch chapter_pattern clean_line then
    let clean_line_numeric := str_of (_convert_line_if_roman clean_line) in
    let consecutive_chapter_index :=
      if prev_is_chapter st then S (consecutive_chapter_index st) else 0 in
    if (isnumeric clean_line_numeric
        && negb (int clean_line_numeric =? chapter_number st)%Z)
       || prev_is_chapter st
    then
      if (consecutive_chapter_index =? 1)
         && nonempty_list (start_indices st)
      then ScanState (removelast (start_indices st))
                     (removelast (original_chapter_names st))
                     false (chapter_number st - 1) consecutive_chapter_index
      else ScanState (start_indices st) (original_chapter_names st)
                     false (chapter_number st) consecutive_chapter_index
    else
      let chapter_name :=
        with_subtitle lines (range (i + 1) (min (i + 3) (length lines))) clean_line in
      ScanState (start_indices st ++ [i])
                (original_chapter_names st ++ [chapter_name])
                true (chapter_number st + 1) consecutive_chapter_index
  else if rmatch prologue_epilogue_pattern clean_line then
    if negb (eqs (upper clean_line) (py "EPILOGUE")
             && (length (start_indices st) =? 0))
    then ScanState (start_indices st ++ [i])
                   (original_chapter_names st ++ [line])
                   true (chapter_number st) (consecutive_chapter_index st)
    else st
  else ScanState (start_indices st) (original_chapter_names st)
                 false (chapter_number st) (consecutive_chapter_index st).

(** The loop [for i, line in enumerate(lines)], from index [i] on. *)
Fixpoint scan_from (lines : list str) (i : nat) (rest : list str)
    (st : scan_state) : scan_state :=
  match rest with
  | [] => st
  | line :: rest' => scan_from lines (S i) rest' (scan_step lines i line st)
  end.

Definition scan (lines : list str) : scan_state := scan_from lines 0 lines scan_init.

(** The boundaries after [start_indices.append(len(lines))]. *)
Definition boundaries (lines : list str) : list nat :=
  start_indices (scan lines) ++ [length lines].

(** [lines[start_indices[i]:start_indices[i + 1]]]; [None] stands for an
    index out of range. *)
Definition span_at (lines : list str) (starts : list nat) (i : nat)
    : option (list str) :=
  match nth_error starts i, nth_error starts (i + 1) with
  | Some a, Some b => Some (slice lines a b)
  | _, _ => None
  end.

Definition chapter_at (lines : list str) (starts : list nat)
    (names : list str) (i : nat) : option (str * str) :=
  match span_at lines starts i, nth_error names i with
  | Some chapter_lines, Some name => Some (strip (join [NL] chapter_lines), name)
  | _, _ => None
  end.

Fixpoint all_some (A : Type) (l : list (option A)) : option (list A) :=
  match l with
  | [] => Some []
  | None :: _ => None
  | Some x :: l' =>
      match all_some l' with
      | Some xs => Some (x :: xs)
      | None => None
      end
  end.

(** The line spans of the chapters, before they are joined and stripped. *)
Definition chapter_spans (pdf_text : str) : option (list (list str)) :=
  let lines := splitlines pdf_text in
  let starts := boundaries lines in
  all_some (map (span_at lines starts) (range 0 (length starts - 1))).

(** [_detect_chapters]; [None] stands for an [IndexError]. *)
Definition _detect_chapters (pdf_text : str)
    : option (list (str * str) * list str) :=
  let lines := splitlines pdf_text in
  let st := scan lines in
  let starts := boundaries lines in
  match starts with
  | s0 :: _ =>
      match all_some (map (chapter_at lines starts (original_chapter_names st))
                          (range 0 (length starts - 1))) with
      | Some chapters => Some (chapters, firstn s0 lines)
      | None => None
      end
  | [] => Some ([(pdf_text, py "Chapter 1")], [])
  end.

(** [_detect_paragraphs]: one turn of the loop at line [i], on the pair
    of [paragraphs] and [current_paragraph]. *)
Definition first_isupper (s : str) : bool :=
  match s with c :: _ => is_upper c | [] => false end.

Definition para_step (i : nat) (line : str) (st : list str * list str)
    : list str * list str :=
  let '(paragraphs, current_paragraph) := st in
  let stripped_line := strip line in
  let '(paragraphs, current_paragraph) :=
    if nonempty stripped_line &&
       ((i =? 0) || (first_isupper stripped_line && nonempty_list current_paragraph
                     && endswith (last current_paragraph []) (py ".")))
    then
      if nonempty_list current_paragraph
      then (paragraphs ++ [join (py " ") current_paragraph], [])
      else (paragraphs, current_paragraph)
    else (paragraphs, current_paragraph) in
  let current_paragraph :=
    if nonempty stripped_line then current_paragraph ++ [stripped_line]
    else current_paragraph in
  (paragraphs, current_paragraph).

Fixpoint para_from (i : nat) (lines : list str) (st : list str * list str)
    : list str * list str :=
  match lines with
  | [] => st
  | line :: lines' => para_from (S i) lines' (para_step i line st)
  end.

Definition _detect_paragraphs (lines : list str) : list str :=
  let '(paragraphs, current_paragraph) := para_from 0 lines ([], []) in
  if nonempty_list current_paragraph
  then paragraphs ++ [join (py " ") current_paragraph]
  else paragraphs.

(** [_add_chapters_to_epub]: the item made for one chapter. The values
    [start_idx] and [content_text] of the source are computed and never
    used, so they are left out. *)
Record epub_html := EpubHtml {
  title : str;
  file_name : str;
  content : str
}.

Definition add_paragraph (chapter_name : str) (html_content para : str) : str :=
  if negb (contains chapter_name para) && nonempty (strip para)
  then html_content ++ py "<p>" ++ para ++ py "</p>"
  else html_content.

Definition render_chapter (i : nat) (chapter : str * str) : epub_html :=
  let '(chapter_text, chapter_name) := chapter in
  let paragraphs := _detect_paragraphs (splitlines chapter_text) in
  let html_content := py "<h1>" ++ chapter_name ++ py "</h1>" in
  EpubHtml chapter_name
    (py "chapter_" ++ str_of_int (Z.of_nat i) ++ py ".xhtml")
    (fold_left (add_paragraph chapter_name) paragraphs html_content).

Fixpoint render_from (i : nat) (chapters : list (str * str)) : list epub_html :=
  match chapters with
  | [] => []
  | ch :: rest => render_chapter i ch :: render_from (S i) rest
  end.

(** The list [self.chapter_items] that [_add_chapters_to_epub] leaves. *)
Definition _add_chapters_to_epub (chapters : list (str * str)) : list epub_html :=
  render_from 1 chapters.

(** ** The rest of the converter *)

(** [_preserve_formatting] reads [page.get_text("dict")["blocks"]]: a
    block may lack the key ["lines"]; a line is its list of spans; of a
    span the loop reads ["text"], ["flags"] and ["font"].  The fallback
    of the [except] branch, plain text from the rendering library, is
    outside the embedding. *)
Record span := Span {
  span_text : str;
  span_flags : N;
  span_font : str
}.

Definition text_line := list span.
Definition block := option (list text_line).

(** The formatting of one span. *)
Definition format_span (s : span) : str :=
  let span_text := span_text s in
  let is_italic := negb (N.land (span_flags s) 2 =? 0)%N in
  let is_bold :=
    if contains (lower (span_font s)) (py "bold") then true
    else negb (N.land (span_flags s) 16 =? 0)%N in
  if is_bold && is_italic then py "<b><i>" ++ span_text ++ py "</i></b>"
  else if is_bold then py "<b>" ++ span_text ++ py "</b>"
  else if is_italic then py "<i>" ++ span_text ++ py "</i>"
  else span_text.

(** [line_text] after the loop over the spans of a line. *)
Definition format_line (l : text_line) : str :=
  fold_left (fun line_text s => line_text ++ format_span s) l [].

Definition format_block (text_with_formatting : str) (b : block) : str :=
  match b with
  | None => text_with_formatting
  | Some lines =>
      fold_left (fun text l => text ++ format_line l ++ [NL])
                lines text_with_formatting
  end.

Definition _preserve_formatting (blocks : list block) : str :=
  fold_left format_block blocks [].

(** [_add_intro_to_epub]: the item stored in [self.intro_chapter], if
    one is made. *)
Definition intro_paragraph (html para : str) : str :=
  html ++ py "<p>" ++ para ++ py "</p>".

Definition _add_intro_to_epub (intro_text_lines : list str) : option epub_html :=
  if negb (nonempty_list intro_text_lines) then None
  else
    let intro_text := join [NL] intro_text_lines in
    let intro_paragraphs := splitlines intro_text in
    let clean_paragraphs :=
      map strip (filter (fun para => nonempty (strip para)) intro_paragraphs) in
    let intro_html_content :=
      fold_left intro_paragraph clean_paragraphs (py "<h1>Introduction</h1>") in
    Some (EpubHtml (py "Introduction") (py "intro.xhtml") intro_html_content).

(** [_build_navigation]: the spine and the table of contents. *)
Inductive spine_entry :=
| SpineNav
| SpineItem (item : epub_html).

Definition optional (A : Type) (o : option A) : list A :=
  match o with Some x => [x] | None => [] end.

Definition _build_navigation (intro_chapter : option epub_html)
    (chapter_items : list epub_html) : list spine_entry * list epub_html :=
  let spine :=
    [SpineNav] ++ map SpineItem (optional intro_chapter)
               ++ map SpineItem chapter_items in
  let toc := optional intro_chapter ++ chapter_items in
  (spine, toc).

(** What [convert] builds between the extraction of [pdf_text] and
    [epub.write_epub]; [None] stands for the exception that makes
    [convert] return [False]. *)
Record book := Book {
  intro_chapter : option epub_html;
  chapter_items : list epub_html;
  spine : list spine_entry;
  toc : list epub_html
}.

Definition convert_text (pdf_text : str) : option book :=
  let merged_text := _merge_split_lines (splitlines pdf_text) in
  match _detect_chapters merged_text with
  | None => None
  | Some (chapters, intro_text_lines) =>
      let intro := _add_intro_to_epub intro_text_lines in
      let items := _add_chapters_to_epub chapters in
      let '(spine, toc) := _build_navigation intro items in
      Some (Book intro items spine toc)
  end.

(** ** Notions of the specification *)

(** The lines that the loops act on: trimmed, blank ones dropped. *)
Definition nonblank_lines (lines : list str) : list str :=
  filter nonempty (map strip lines).

(** *** Numeral normalizer *)

(** One of I, V, X, L, C, D, M in either case. *)
Definition is_roman_char (c : ascii) : bool :=
  existsb (eqc c) (py "IVXLCDMivxlcdm").

Definition roman_token (t : str) : bool :=
  nonempty t && forallb is_roman_char t.

Definition symbol_value (c : ascii) : Z := roman_map (to_upper c).

(** A symbol counts negatively when the symbol after it is strictly
    larger, positively otherwise. *)
Fixpoint roman_value (t : str) : Z :=
  match t with
  | [] => 0
  | c :: rest =>
      (match rest with
       | d :: _ =>
           if (symbol_value c <? symbol_value d)%Z
           then - symbol_value c else symbol_value c
       | [] => symbol_value c
       end + roman_value rest)%Z
  end.

(** *** What a pattern accepts *)

(** The character before the position once [w] has been read. *)
Definition after (prev : option ascii) (w : str) : option ascii :=
  fold_left (fun _ c => Some c) w prev.

(** [lang ic r prev w rest]: [r] can consume exactly [w], when [prev] is
    the character before [w] and [rest] is what follows it. *)
Fixpoint lang (ic : bool) (r : regex) (prev : option ascii) (w rest : str) : Prop :=
  match r with
  | Eps => w = []
  | Never => False
  | Chr a => exists c, w = [c] /\ cls_match ic a c = true
  | Plus a => w <> [] /\ forallb (cls_match ic a) w = true
  | Rep a lo hi =>
      lo <= length w <= hi /\ forallb (cls_match ic a) w = true
  | Seq r1 r2 =>
      exists w1 w2, w = w1 ++ w2 /\ lang ic r1 prev w1 (w2 ++ rest)
                    /\ lang ic r2 (after prev w1) w2 rest
  | Alt r1 r2 => lang ic r1 prev w rest \/ lang ic r2 prev w rest
  | Opt r1 => w = [] \/ lang ic r1 prev w rest
  | AheadB => w = [] /\ boundary prev rest = true
  | Bol => w = [] /\ prev = None
  | Eol => w = [] /\ at_end rest = true
  end.

(** *** The chapter pattern in the words of the specification *)

Definition ci_equal (a b : str) : bool := eqs (lower a) (lower b).

Definition is_separator (c : ascii) : bool :=
  eqc c ":" || eqc c "-" || is_space c.

Definition arabic (t : str) : Prop :=
  1 <= length t <= 3 /\ forallb is_digit t = true.

Definition spelled_out (t : str) : Prop :=
  exists w, In w _generate_textual_numbers /\ ci_equal t w = true.

Definition numeral (t : str) : Prop :=
  arabic t \/ roman_token t = true \/ spelled_out t.

Definition whitespace_run (t : str) : Prop :=
  t <> [] /\ forallb is_space t = true.

Definition separator_run (t : str) : Prop :=
  t <> [] /\ forallb is_separator t = true.

(** Nothing, or a separator and a title. *)
Definition title_tail (rest : str) : Prop :=
  rest = [] \/
  exists sep title, rest = sep ++ title /\ separator_run sep /\ title <> [].

Definition chapter_line (line : str) : Prop :=
  exists kw ws num rest,
    line = kw ++ ws ++ num ++ rest /\
    ci_equal kw (py "Chapter") = true /\
    whitespace_run ws /\ numeral num /\ title_tail rest.

Definition bare_numeral (line : str) : Prop :=
  arabic line \/ roman_token line = true.

Definition chapter_heading (line : str) : Prop :=
  chapter_line line \/ bare_numeral line.

(** A line holds no newline. *)
Definition single_line (line : str) : bool :=
  forallb (fun c => negb (eqc c NL)) line.

(** *** Line merger *)

Definition no_linebreak (s : str) : bool :=
  forallb (fun c => negb (is_linebreak c)) s.

(** *** Paragraph segmenter *)

(** The paragraphs in the words of the specification: [current] is the
    paragraph accumulated so far, as text. *)
Fixpoint paragraphs_after (current : str) (ls : list str) : list str :=
  match ls with
  | [] => [current]
  | l :: ls' =>
      if first_isupper l && endswith current (py ".")
      then current :: paragraphs_after l ls'
      else paragraphs_after (current ++ py " " ++ l) ls'
  end.

Definition spec_paragraphs (ls : list str) : list str :=
  match ls with
  | [] => []
  | l :: ls' => paragraphs_after l ls'
  end.

(** *** Content renderer *)

Definition heading_element (name : str) : str := py "<h1>" ++ name ++ py "</h1>".
Definition paragraph_element (p : str) : str := py "<p>" ++ p ++ py "</p>".

(** The paragraphs that the renderer keeps: those whose text does not
    occur inside the title. *)
Definition body_paragraphs (name : str) (paragraphs : list str) : list str :=
  filter (fun p => negb (contains name p)) paragraphs.

(** The paragraphs kept when only exact duplicates of the title and empty
    paragraphs are left out. *)
Definition exact_body (name : str) (paragraphs : list str) : list str :=
  filter (fun p => negb (eqs p name) && nonempty p) paragraphs.

(** *** Chapter boundaries *)

(** Strictly increasing boundaries, none beyond [n]. *)
Fixpoint increasing_upto (n : nat) (bs : list nat) : Prop :=
  match bs with
  | [] => True
  | a :: rest =>
      a <= n /\
      match rest with
      | b :: _ => a < b
      | [] => True
      end /\ increasing_upto n rest
  end.

(** The consecutive spans that a list of boundaries cuts out. *)
Fixpoint spans_between (A : Type) (l : list A) (bs : list nat) : list (list A) :=
  match bs with
  | a :: rest =>
      match rest with
      | b :: _ => slice l a b :: spans_between l rest
      | [] => []
      end
  | [] => []
  end.

(** ** Notions used in the proofs *)

(** What [_detect_paragraphs] returns from a state of its loop. *)
Definition finish_paragraphs (st : list str * list str) : list str :=
  let '(paragraphs, current_paragraph) := st in
  if nonempty_list current_paragraph
  then paragraphs ++ [join (py " ") current_paragraph]
  else paragraphs.

(** A string that starts with a character other than white space. *)
Definition starts_solid (p : str) : Prop :=
  match p with
  | c :: _ => is_space c = false
  | [] => False
  end.

(** The chapter of the examples: two one-sentence paragraphs under a
    title that ends with the first of them. *)
Definition sample_chapter : str * str :=
  (py "One." ++ [NL] ++ py "Two.", py "Chapter One.").

(** What holds of the loop variables before line [i] is scanned. *)
Definition scan_inv (i : nat) (st : scan_state) : Prop :=
  increasing_upto i (start_indices st ++ [i]) /\
  length (original_chapter_names st) = length (start_indices st).

(** A line that neither pattern takes for a heading. *)
Definition plain_line (line : str) : bool :=
  let clean_line := _strip_tags (strip line) in
  negb (rmatch chapter_pattern clean_line) &&
  negb (rmatch prologue_epilogue_pattern clean_line).

(** A heading line that is no bare numeral: the chapter pattern takes
    it, and the numeral normalizer leaves it as text. *)
Definition numbered_heading (line : str) : bool :=
  let clean_line := _strip_tags (strip line) in
  nonempty clean_line && rmatch chapter_pattern clean_line &&
  negb (isnumeric (str_of (_convert_line_if_roman clean_line))).

(** Body text under a heading: lines that neither pattern takes for a
    heading, one of them at least with visible text. *)
Definition body_text (body : list str) : bool :=
  forallb plain_line body &&
  existsb (fun line => nonempty (_strip_tags (strip line))) body.

(** Headings, each followed by its body. *)
Fixpoint chaptered (headings : list str) (bodies : list (list str)) : list str :=
  match headings, bodies with
  | h :: headings', body :: bodies' => h :: body ++ chaptered headings' bodies'
  | _, _ => []
  end.

(** The indices of the headings in [chaptered headings bodies], when the
    first one stands at index [i]. *)
Fixpoint heading_positions (i : nat) (bodies : list (list str)) : list nat :=
  match bodies with
  | [] => []
  | body :: bodies' => i :: heading_positions (S (i + length body)) bodies'
  end.

(** The loop variables after a line of body text. *)
Definition after_body (st : scan_state) : scan_state :=
  ScanState (start_indices st) (original_chapter_names st) false
            (chapter_number st) (consecutive_chapter_index st).

(** The five headings alone, one per line. *)
Definition five_headings : list str :=
  map py ["Chapter 1"; "Chapter 2"; "Chapter 3"; "Chapter 4"; "Chapter 5"]%string.

(** A heading and its repetition on the next line. *)
Definition repeated_heading : list str := map py ["Chapter 1"; "Chapter 1"]%string.

(** What a turn of the loop appends to [merged_text]. *)
Definition chunk (merged_text : str) (prev_is_chapter : bool) (line : str) : str :=
  let s := strip line in
  let gap := if nonempty merged_text then [NL] else [] in
  if negb (nonempty s) then []
  else if is_heading (_strip_tags s) then gap ++ [NL] ++ s ++ [NL]
  else if nonempty merged_text && negb (endswith_any merged_text terminals)
  then [SP] ++ s
  else gap ++ s ++
       (if (length (split (_strip_tags s)) =? 1) && prev_is_chapter then [NL] else []).

(** The merger starts a new line after [T]: [T] is empty or ends in one
    of the [terminals]. *)
Definition closed (T : str) : Prop :=
  nonempty T && negb (endswith_any T terminals) = false.

(** Two lines that are no headings and merge into one. *)
Definition split_heading : list str := map py ["Chapter"; "ONE"]%string.

(** The first part of a chapter heading: the word, white space and a
    numeral, with [rest] following. *)
Definition chapter_start (w rest : str) : Prop :=
  exists kw ws num,
    w = kw ++ ws ++ num /\ ci_equal kw (py "Chapter") = true /\
    whitespace_run ws /\
    ((arabic num /\ boundary (after (after (after None kw) ws) num) rest = true)
     \/ roman_token num = true \/ spelled_out num).

(** A reflowed text with two chapters, as the merger lays it out. *)
Definition two_chapters : str :=
  _merge_split_lines (map py ["Chapter 1"; "It began."; "Chapter 2"; "It ended."]%string).

(** The lines of the texts that [_detect_chapters] returns: the front
    matter, then the lines of each chapter text. *)
Definition returned_lines (result : list (str * str) * list str) : list str :=
  snd result ++ flat_map (fun chapter => splitlines (fst chapter)) (fst result).

(** ** Notions used for the further properties *)

(** A [<] with a [>] somewhere after it: what [_strip_tags] removes. *)
Fixpoint complete_tag (s : str) : bool :=
  match s with
  | [] => false
  | c :: r =>
      if eqc c "<"%char && existsb (eqc ">"%char) r then true else complete_tag r
  end.

(** The text with all white space taken out. *)
Definition solid (s : str) : str := filter (fun c => negb (is_space c)) s.

(** Each paragraph but the last ends with a period and the paragraph
    after it begins with an upper-case letter. *)
Fixpoint well_broken (ps : list str) : bool :=
  match ps with
  | p :: rest =>
      match rest with
      | q :: _ => endswith p (py ".") && first_isupper q && well_broken rest
      | [] => true
      end
  | [] => true
  end.

(** The text of a page without markup. *)
Definition unformatted_line (l : text_line) : str := concat (map span_text l).

Definition unformatted_block (b : block) : str :=
  match b with
  | None => []
  | Some lines => concat (map (fun l => unformatted_line l ++ [NL]) lines)
  end.

Definition unformatted_text (blocks : list block) : str := concat (map unformatted_block blocks).

Definition no_lt (s : str) : bool := forallb (fun c => negb (eqc c "<"%char)) s.

(** The value of a line that is a bare numeral. *)
Definition bare_value (clean_line : str) : Z :=
  if roman_token clean_line then roman_value clean_line else int clean_line.

(** All the spans of a page, in order. *)
Definition spans_of (blocks : list block) : list span :=
  flat_map (fun b : block =>
    match b with None => [] | Some lines => concat lines end) blocks.

(** One turn of [int] on a digit. *)
Definition digit_step (acc : Z) (c : ascii) : Z :=
  (10 * acc + Z.of_N (code c - 48))%Z.

(** Line [j] is a heading for the merger and the detector alike. *)
Definition heading_at (lines : list str) (j : nat) : bool :=
  is_heading (_strip_tags (strip (nth j lines []))).

(** [text] begins with the trimmed line [j]. *)
Definition begins_with_line (lines : list str) (j : nat) (text : str) : Prop :=
  exists tail, text = strip (nth j lines []) ++ tail.

(** The file name of the chapter numbered [k]. *)
Definition chapter_file (k : nat) : str :=
  py "chapter_" ++ str_of_int (Z.of_nat k) ++ py ".xhtml".

(** How the lines of a text change when the character [c] is put at its
    end: not at all, or by one more line, empty or holding [c] alone, or
    by [c] at the end of the last line. *)
Definition line_added (c : ascii) (x y : list str) : Prop :=
  x = y \/ x = y ++ [[]] \/ x = y ++ [[c]] \/
  exists init l, y = init ++ [l] /\ x = init ++ [l ++ [c]].

(** The lines of [d :: s], from the lines of [s], for a [d] that is no
    line boundary. *)
Definition first_line_cons (d : ascii) (ls : list str) : list str :=
  match ls with
  | [] => [[d]]
  | l :: ls' => (d :: l) :: ls'
  end.

(** *** Lines that the merger sets apart *)

(** One word is left of a trimmed line once its markup is removed. *)
Definition one_word (s : str) : bool := length (split (_strip_tags s)) =? 1.

(** The merger closes a trimmed line with a newline of its own when the
    line is a heading, or is one word directly below a heading. *)
Definition set_apart_line (prev_is_chapter : bool) (s : str) : bool :=
  is_heading (_strip_tags s) || (one_word s && prev_is_chapter).

Fixpoint set_apart_from (prev_is_chapter : bool) (ls : list str) : nat :=
  match ls with
  | [] => 0
  | s :: rest =>
      (if set_apart_line prev_is_chapter s then 1 else 0) +
      set_apart_from (is_heading (_strip_tags s)) rest
  end.

(** How many of the non-blank lines the merger sets apart. *)
Definition set_apart (lines : list str) : nat :=
  set_apart_from false (nonblank_lines lines).

(** A line as the loops see it: trimmed, not blank, without a line
    boundary. *)
Definition clean (s : str) : Prop :=
  s <> [] /\ strip s = s /\ no_linebreak s = true.

(** The newline that the merger puts before a new line of output. *)
Definition line_gap (T : str) : str := if nonempty T then [NL] else [].

(** The output with a paragraph line [o] under way after [D]. *)
Definition paragraph_open (D o : str) : str := (D ++ line_gap D) ++ o.

(** ** Basic facts about the string operations *)

Unset Implicit Arguments.

(** Case analysis on all the characters at once. *)
Ltac each_char c := destruct c as [[] [] [] [] [] [] [] []].

Lemma eqc_true (a b : ascii) : eqc a b = true <-> a = b.
Proof. apply Ascii.eqb_eq. Qed.

Lemma eqc_refl (a : ascii) : eqc a a = true.
Proof. apply Ascii.eqb_refl. Qed.

Lemma eqs_true (a b : str) : eqs a b = true <-> a = b.
Proof.
  revert b; induction a as [|x a IH]; intros [|y b]; simpl; split;
    try congruence; try reflexivity.
  - intros H. apply andb_prop in H as [H1 H2].
    apply eqc_true in H1. apply IH in H2. congruence.
  - intros H. injection H as -> ->. rewrite eqc_refl. simpl. now apply IH.
Qed.

Lemma nonempty_false (s : str) : nonempty s = false <-> s = [].
Proof. destruct s; simpl; split; congruence. Qed.

Lemma nonempty_true (s : str) : nonempty s = true <-> s <> [].
Proof. destruct s; simpl; split; congruence. Qed.

Lemma nonempty_app_r (a b : str) : nonempty b = true -> nonempty (a ++ b) = true.
Proof. destruct a; simpl; auto. Qed.

(** *** Trimming *)

Lemma lstrip_head (s : str) :
  match lstrip s with
  | c :: _ => is_space c = false
  | [] => True
  end.
Proof.
  induction s as [|c s IH]; simpl; [exact I|].
  destruct (is_space c) eqn:E; [exact IH | exact E].
Qed.

Lemma lstrip_fixed (s : str) :
  match s with c :: _ => is_space c = false | [] => True end -> lstrip s = s.
Proof. destruct s as [|c s]; simpl; [reflexivity | now intros ->]. Qed.

Lemma lstrip_idem (s : str) : lstrip (lstrip s) = lstrip s.
Proof. apply lstrip_fixed, lstrip_head. Qed.

Lemma lstrip_app_keeps (s t : str) :
  lstrip s <> [] -> lstrip (s ++ t) = lstrip s ++ t.
Proof.
  induction s as [|c s IH]; simpl; [congruence|].
  destruct (is_space c); [exact IH | reflexivity].
Qed.

(** Trimming on the right leaves the first character as it is. *)
Lemma rstrip_cons (c : ascii) (s : str) :
  is_space c = false -> exists s', rstrip (c :: s) = c :: s'.
Proof.
  intros Hc. unfold rstrip. simpl rev.
  destruct (lstrip (rev s)) as [|d u] eqn:E.
  - assert (H : lstrip (rev s ++ [c]) = [c]).
    { clear -E Hc. induction (rev s) as [|x l IH]; simpl in *.
      - now rewrite Hc.
      - destruct (is_space x); [now apply IH | discriminate]. }
    rewrite H. now exists [].
  - rewrite lstrip_app_keeps by congruence.
    rewrite rev_app_distr. simpl. now eexists.
Qed.

Lemma strip_head (s : str) :
  match strip s with
  | c :: _ => is_space c = false
  | [] => True
  end.
Proof.
  unfold strip. pose proof (lstrip_head s) as H.
  destruct (lstrip s) as [|c u]; [exact I|].
  destruct (rstrip_cons c u H) as [s' ->]. exact H.
Qed.

Lemma strip_last (s : str) :
  match rev (strip s) with
  | c :: _ => is_space c = false
  | [] => True
  end.
Proof.
  unfold strip, rstrip. rewrite rev_involutive. apply lstrip_head.
Qed.

Lemma strip_idem (s : str) : strip (strip s) = strip s.
Proof.
  unfold strip at 1. rewrite (lstrip_fixed _ (strip_head s)).
  unfold strip, rstrip. rewrite rev_involutive, lstrip_idem. reflexivity.
Qed.

Lemma lstrip_suffix (s : str) : exists w, s = w ++ lstrip s.
Proof.
  induction s as [|c s [w IH]]; [now exists []|]. cbn [lstrip].
  destruct (is_space c); [|now exists []].
  exists (c :: w). cbn [app]. now f_equal.
Qed.

Lemma rstrip_prefix (s : str) : exists w, s = rstrip s ++ w.
Proof.
  unfold rstrip. destruct (lstrip_suffix (rev s)) as [w E].
  exists (rev w). rewrite <- rev_app_distr, <- E. now rewrite rev_involutive.
Qed.

(** *** Suffix tests *)

Lemma endswith_char_app (a b : str) (c : ascii) :
  b <> [] -> endswith (a ++ b) [c] = endswith b [c].
Proof.
  intros Hb. unfold endswith. rewrite rev_app_distr. simpl.
  destruct (rev b) as [|y l] eqn:E.
  - apply (f_equal (@rev ascii)) in E. rewrite rev_involutive in E. now subst.
  - simpl. reflexivity.
Qed.

Lemma endswith_terminals_app (a b : str) :
  b <> [] -> endswith_any (a ++ b) terminals = endswith_any b terminals.
Proof.
  intros Hb. unfold endswith_any, terminals. cbn [map existsb].
  rewrite !(endswith_char_app a b) by assumption. reflexivity.
Qed.

Lemma endswith_newline (a : str) : endswith_any (a ++ [NL]) terminals = true.
Proof. rewrite endswith_terminals_app by discriminate. reflexivity. Qed.

(** ** The matcher finds exactly what the pattern accepts *)

Lemma after_app (prev : option ascii) (w1 w2 : str) :
  after prev (w1 ++ w2) = after (after prev w1) w2.
Proof. unfold after. apply fold_left_app. Qed.

Lemma plus_from_spec (ic : bool) (a : cls) (k : cont) (s : str) :
  forall prev,
  plus_from ic a s k = true <->
  exists w rest, s = w ++ rest /\ w <> [] /\
    forallb (cls_match ic a) w = true /\ k (after prev w) rest = true.
Proof.
  induction s as [|c r IH]; intros prev; simpl.
  - split; [discriminate|].
    intros (w & rest & E & Hw & _). destruct w; [congruence | discriminate].
  - destruct (cls_match ic a c) eqn:Hc.
    + destruct (plus_from ic a r k) eqn:Hp.
      * split; [intros _ | reflexivity].
        destruct (proj1 (IH (Some c)) eq_refl) as (w & rest & E & Hw & Hall & Hk).
        exists (c :: w), rest. subst r. simpl. rewrite Hc.
        repeat split; [discriminate | exact Hall | exact Hk].
      * split.
        -- intros Hk. exists [c], r. simpl. rewrite Hc.
           repeat split; [discriminate | exact Hk].
        -- intros (w & rest & E & Hw & Hall & Hk).
           destruct w as [|d w]; [congruence|].
           simpl in E. injection E as <- ->.
           destruct w as [|e w]; [exact Hk|].
           simpl in Hall. rewrite Hc in Hall. simpl in Hall.
           enough (X : false = true) by discriminate.
           apply (IH (Some c)). exists (e :: w), rest.
           repeat split; [discriminate | exact Hall | exact Hk].
    + split; [discriminate|].
      intros (w & rest & E & Hw & Hall & _).
      destruct w as [|d w]; [congruence|].
      simpl in E. injection E as <- ->. simpl in Hall.
      rewrite Hc in Hall. discriminate.
Qed.

Lemma rep_from_spec (ic : bool) (a : cls) (k : cont) (hi : nat) :
  forall lo prev s,
  rep_from ic a lo hi prev s k = true <->
  exists w rest, s = w ++ rest /\ lo <= length w <= hi /\
    forallb (cls_match ic a) w = true /\ k (after prev w) rest = true.
Proof.
  assert (Stop : forall lo prev s hi',
    (if lo =? 0 then k prev s else false) = true ->
    exists w rest, s = w ++ rest /\ lo <= length w <= hi' /\
      forallb (cls_match ic a) w = true /\ k (after prev w) rest = true).
  { intros lo prev s hi' H. destruct (Nat.eqb_spec lo 0); [|discriminate].
    exists [], s. simpl. repeat split; [lia | lia | exact H]. }
  assert (Short : forall lo prev s rest hi',
    s = [] ++ rest -> lo <= @length ascii [] <= hi' -> k (after prev []) rest = true ->
    (if lo =? 0 then k prev s else false) = true).
  { intros lo prev s rest hi' E [L _] Hk. simpl in *. subst s.
    destruct (Nat.eqb_spec lo 0); [exact Hk | lia]. }
  induction hi as [|hi IH]; intros lo prev s.
  - simpl. split; [apply Stop|].
    intros (w & rest & E & L & _ & Hk).
    destruct w; [eapply Short; eauto | simpl in L; lia].
  - cbn [rep_from]. split.
    + destruct s as [|c r]; [apply Stop|].
      destruct (cls_match ic a c) eqn:Hc; [|apply Stop].
      destruct (rep_from ic a (pred lo) hi (Some c) r k) eqn:Hr; [|apply Stop].
      intros _. apply IH in Hr as (w & rest & E & L & Hall & Hk).
      exists (c :: w), rest. subst r. simpl. rewrite Hc.
      repeat split; [lia | lia | exact Hall | exact Hk].
    + intros (w & rest & E & L & Hall & Hk).
      destruct w as [|d w].
      * assert (X : (if lo =? 0 then k prev s else false) = true)
          by (eapply Short; eauto).
        destruct s as [|c r]; [exact X|].
        destruct (cls_match ic a c); [|exact X].
        destruct (rep_from ic a (pred lo) hi (Some c) r k); [reflexivity | exact X].
      * simpl in E. subst s. simpl in Hall, L.
        apply andb_prop in Hall as [Hd Hall]. rewrite Hd.
        assert (X : rep_from ic a (pred lo) hi (Some d) (w ++ rest) k = true).
        { apply IH. exists w, rest. repeat split; [lia | lia | exact Hall | exact Hk]. }
        rewrite X. reflexivity.
Qed.

Lemma run_lang (ic : bool) (r : regex) :
  forall prev s (k : cont),
  run ic r prev s k = true <->
  exists w rest, s = w ++ rest /\ lang ic r prev w rest /\
                 k (after prev w) rest = true.
Proof.
  induction r as [| |a|a|a lo hi|r1 IH1 r2 IH2|r1 IH1 r2 IH2|r1 IH1| | |];
    intros prev s k; cbn [run lang].
  - split.
    + intros H. now exists [], s.
    + intros (w & rest & -> & -> & H). exact H.
  - split; [discriminate | intros (w & rest & _ & [] & _)].
  - split.
    + destruct s as [|c s']; [discriminate|].
      destruct (cls_match ic a c) eqn:Hc; [|discriminate].
      intros Hk. exists [c], s'. split; [reflexivity|]. split; [|exact Hk].
      now exists c.
    + intros (w & rest & -> & (c & -> & Hc) & Hk). simpl. now rewrite Hc.
  - rewrite (plus_from_spec ic a k s prev). split.
    + intros (w & rest & E & Hw & Hall & Hk). now exists w, rest.
    + intros (w & rest & E & [Hw Hall] & Hk). now exists w, rest.
  - rewrite rep_from_spec. split.
    + intros (w & rest & E & Hw & Hall & Hk). now exists w, rest.
    + intros (w & rest & E & [Hw Hall] & Hk). now exists w, rest.
  - rewrite IH1. split.
    + intros (w1 & rest1 & -> & L1 & Hk). apply IH2 in Hk.
      destruct Hk as (w2 & rest & -> & L2 & Hk).
      exists (w1 ++ w2), rest. rewrite app_assoc, after_app.
      split; [reflexivity|]. split; [|exact Hk]. now exists w1, w2.
    + intros (w & rest & -> & (w1 & w2 & -> & L1 & L2) & Hk).
      exists w1, (w2 ++ rest). rewrite app_assoc. split; [reflexivity|].
      split; [exact L1|]. apply IH2. exists w2, rest.
      rewrite after_app in Hk. now repeat split.
  - destruct (run ic r1 prev s k) eqn:H1.
    + split; [intros _ | reflexivity].
      apply IH1 in H1 as (w & rest & E & L & Hk). exists w, rest. tauto.
    + rewrite IH2. split.
      * intros (w & rest & E & L & Hk). exists w, rest. tauto.
      * intros (w & rest & E & [L|L] & Hk); [|now exists w, rest].
        assert (X : run ic r1 prev s k = true) by (apply IH1; now exists w, rest).
        congruence.
  - destruct (run ic r1 prev s k) eqn:H1.
    + split; [intros _ | reflexivity].
      apply IH1 in H1 as (w & rest & E & L & Hk). exists w, rest. tauto.
    + split.
      * intros Hk. exists [], s. simpl. tauto.
      * intros (w & rest & E & [->|L] & Hk); [now subst s|].
        assert (X : run ic r1 prev s k = true) by (apply IH1; now exists w, rest).
        congruence.
  - split.
    + destruct (boundary prev s) eqn:B; [|discriminate].
      intros Hk. exists [], s. simpl. tauto.
    + intros (w & rest & -> & [-> B] & Hk). simpl in *. now rewrite B.
  - split.
    + destruct (at_start prev) eqn:B; [|discriminate].
      intros Hk. exists [], s. destruct prev; [discriminate|]. simpl. tauto.
    + intros (w & rest & -> & [-> ->] & Hk). exact Hk.
  - split.
    + destruct (at_end s) eqn:B; [|discriminate].
      intros Hk. exists [], s. simpl. tauto.
    + intros (w & rest & -> & [-> B] & Hk). simpl in *. now rewrite B.
Qed.

(** A whole-pattern match, for a pattern of the shape [^ r $]. *)
Lemma anchored_match (ic : bool) (r : regex) (s : str) :
  rmatch (Pattern (Seq Bol (Seq r Eol)) ic) s = true <->
  exists w rest, s = w ++ rest /\ lang ic r None w rest /\ at_end rest = true.
Proof.
  unfold rmatch. cbn [body ignorecase]. rewrite run_lang. cbn [lang]. split.
  - intros (w & rest & -> & (w1 & w2 & -> & [-> _] & (w3 & w4 & -> & L & [-> E])) & _).
    exists w3, rest. simpl in *. rewrite app_nil_r. tauto.
  - intros (w & rest & -> & L & E).
    exists w, rest. split; [reflexivity|]. split; [|reflexivity].
    exists [], w. split; [reflexivity|]. split; [tauto|].
    exists w, []. rewrite app_nil_r. simpl. tauto.
Qed.

(** ** Numeral normalizer *)

Lemma roman_cls_match (c : ascii) : cls_match true roman_cls c = is_roman_char c.
Proof. each_char c; vm_compute; reflexivity. Qed.

Lemma roman_cls_upper (c : ascii) :
  cls_match true roman_cls (to_upper c) = is_roman_char c.
Proof. each_char c; vm_compute; reflexivity. Qed.

Lemma to_upper_space (c : ascii) : is_space (to_upper c) = is_space c.
Proof. each_char c; vm_compute; reflexivity. Qed.

Lemma roman_map_nonneg (c : ascii) : (0 <= roman_map c)%Z.
Proof.
  unfold roman_map.
  repeat match goal with |- context [if ?b then _ else _] => destruct b end; lia.
Qed.

Lemma forallb_roman_upper (s : str) :
  forallb (cls_match true roman_cls) (upper s) = forallb is_roman_char s.
Proof.
  unfold upper. induction s as [|c s IH]; cbn [map forallb]; [reflexivity|].
  now rewrite roman_cls_upper, IH.
Qed.

(** The trimmed, upper-cased line never ends in a newline, so [$] can
    only stand at its end. *)
Lemma upper_strip_no_final_newline (line w : str) :
  upper (strip line) <> w ++ [NL].
Proof.
  intros E. pose proof (strip_last line) as H.
  apply (f_equal (@rev ascii)) in E. unfold upper in E.
  rewrite <- map_rev, rev_app_distr in E. simpl in E.
  destruct (rev (strip line)) as [|c u]; [discriminate|].
  simpl in E. injection E as E _.
  rewrite <- to_upper_space, E in H. discriminate.
Qed.

Lemma roman_pattern_upper_strip (line : str) :
  rmatch roman_pattern (upper (strip line)) = roman_token (strip line).
Proof.
  apply eq_true_iff_eq. unfold roman_pattern. rewrite anchored_match.
  unfold roman_run. cbn [lang]. unfold roman_token. split.
  - intros (w & rest & E & [Hw Hall] & Hend).
    destruct rest as [|c [|d rest]]; [| |discriminate].
    + rewrite app_nil_r in E. subst w. rewrite forallb_roman_upper in Hall.
      rewrite Hall, andb_true_r. apply nonempty_true.
      intros X. rewrite X in Hw. now apply Hw.
    + simpl in Hend. apply eqc_true in Hend. subst c.
      now apply upper_strip_no_final_newline in E.
  - intros H. apply andb_prop in H as [Hn Hall].
    exists (upper (strip line)), []. rewrite app_nil_r.
    rewrite forallb_roman_upper. repeat split; try assumption.
    apply nonempty_true in Hn. intros X. apply Hn.
    unfold upper in X. now apply map_eq_nil in X.
Qed.

Lemma roman_fold (s : str) :
  fold_left roman_step (rev (upper s)) (0%Z, 0%Z) =
  (roman_value s, match s with c :: _ => symbol_value c | [] => 0%Z end).
Proof.
  induction s as [|c s IH]; [reflexivity|].
  cbn [upper map rev]. rewrite fold_left_app. fold (upper s). rewrite IH.
  cbn [fold_left roman_step roman_value]. fold (symbol_value c).
  destruct s as [|d s].
  - pose proof (roman_map_nonneg (to_upper c)). unfold symbol_value.
    destruct (Z.ltb_spec (roman_map (to_upper c)) 0); [lia|].
    f_equal. simpl. lia.
  - destruct (symbol_value c <? symbol_value d)%Z; f_equal; lia.
Qed.

Lemma roman_to_int_value (s : str) : _roman_to_int (upper s) = roman_value s.
Proof. unfold _roman_to_int. now rewrite roman_fold. Qed.



(** ** Paragraph segmenter *)

Lemma join_snoc (sep : str) (cur : list str) (s : str) :
  cur <> [] -> join sep (cur ++ [s]) = join sep cur ++ sep ++ s.
Proof.
  induction cur as [|x cur IH]; [congruence|]. intros _.
  destruct cur as [|y cur]; [reflexivity|].
  change (join sep ((x :: y :: cur) ++ [s]))
    with (x ++ sep ++ join sep ((y :: cur) ++ [s])).
  rewrite IH by discriminate.
  change (join sep (x :: y :: cur)) with (x ++ sep ++ join sep (y :: cur)).
  now rewrite <- !app_assoc.
Qed.

Lemma join_ends_with_last (sep : str) (cur : list str) :
  cur <> [] -> exists pre, join sep cur = pre ++ last cur [].
Proof.
  induction cur as [|x cur IH]; [congruence|]. intros _.
  destruct cur as [|y cur]; [now exists []|].
  destruct IH as [pre E]; [discriminate|].
  exists (x ++ sep ++ pre).
  change (join sep (x :: y :: cur)) with (x ++ sep ++ join sep (y :: cur)).
  rewrite E. change (last (x :: y :: cur) []) with (last (y :: cur) []).
  now rewrite <- !app_assoc.
Qed.

Lemma endswith_join (sep : str) (cur : list str) (c : ascii) :
  cur <> [] -> last cur [] <> [] ->
  endswith (join sep cur) [c] = endswith (last cur []) [c].
Proof.
  intros Hc Hl. destruct (join_ends_with_last sep cur Hc) as [pre ->].
  now apply endswith_char_app.
Qed.

Lemma last_in_Forall (A : Type) (P : A -> Prop) (l : list A) (d : A) :
  l <> [] -> Forall P l -> P (last l d).
Proof.
  induction l as [|x l IH]; [congruence|]. intros _ H.
  inversion H; subst. destruct l as [|y l]; [assumption|].
  apply IH; [discriminate | assumption].
Qed.

Lemma nonblank_lines_cons (line : str) (lines : list str) :
  nonblank_lines (line :: lines) =
  if nonempty (strip line) then strip line :: nonblank_lines lines
  else nonblank_lines lines.
Proof. reflexivity. Qed.

Lemma para_from_spec (lines : list str) :
  forall i ps cur,
    (i = 0 -> cur = []) -> Forall (fun l => l <> []) cur ->
    finish_paragraphs (para_from i lines (ps, cur)) =
    ps ++ match cur with
          | [] => spec_paragraphs (nonblank_lines lines)
          | _ => paragraphs_after (join (py " ") cur) (nonblank_lines lines)
          end.
Proof.
  induction lines as [|line lines IH]; intros i ps cur Hi Hcur.
  - simpl. destruct cur; simpl; [now rewrite app_nil_r | reflexivity].
  - cbn [para_from]. rewrite nonblank_lines_cons. unfold para_step.
    destruct (strip line) as [|c s] eqn:Es.
    + cbn [nonempty andb]. apply IH; [discriminate | assumption].
    + cbn [nonempty andb]. set (l := c :: s) in *.
      assert (Hl : l <> []) by discriminate.
      destruct cur as [|x cur].
      * cbn [nonempty_list].
        destruct (orb _ _); cbn [app];
          (rewrite IH; [reflexivity | discriminate | now constructor]).
      * assert (Hi0 : (i =? 0) = false).
        { apply Nat.eqb_neq. intros X. now specialize (Hi X). }
        rewrite Hi0. cbn [orb nonempty_list]. rewrite andb_true_r.
        assert (Hlast : last (x :: cur) [] <> []).
        { apply (last_in_Forall str (fun l => l <> [])); [discriminate | assumption]. }
        cbn [paragraphs_after]. change (py ".") with ["."%char].
        rewrite (endswith_join (py " ") (x :: cur) "."%char) by (discriminate || assumption).
        match goal with |- context [if ?b then _ else _] => destruct b end.
        -- cbv beta iota. cbn [app]. rewrite IH; [|discriminate | now constructor].
           now rewrite <- app_assoc.
        -- cbv beta iota. rewrite IH; [|discriminate|].
           ++ rewrite join_snoc by discriminate.
              destruct cur; reflexivity.
           ++ apply Forall_app. split; [assumption | now constructor].
Qed.

Lemma nonblank_lines_solid (lines : list str) :
  Forall starts_solid (nonblank_lines lines).
Proof.
  induction lines as [|line lines IH]; [constructor|].
  rewrite nonblank_lines_cons. pose proof (strip_head line) as H.
  destruct (strip line) eqn:E; simpl; [assumption|].
  constructor; assumption.
Qed.

Lemma paragraphs_after_solid (ls : list str) :
  forall cur, starts_solid cur -> Forall starts_solid ls ->
              Forall starts_solid (paragraphs_after cur ls).
Proof.
  induction ls as [|l ls IH]; intros cur Hc Hls; simpl.
  - now constructor.
  - inversion Hls; subst.
    match goal with |- context [if ?b then _ else _] => destruct b end.
    + constructor; [assumption | now apply IH].
    + apply IH; [|assumption]. destruct cur; [contradiction | exact Hc].
Qed.

Lemma spec_paragraphs_solid (ls : list str) :
  Forall starts_solid ls -> Forall starts_solid (spec_paragraphs ls).
Proof.
  destruct ls as [|l ls]; [constructor|]. intros H. inversion H; subst.
  now apply paragraphs_after_solid.
Qed.

Lemma detect_paragraphs_refines (lines : list str) :
  _detect_paragraphs lines = spec_paragraphs (nonblank_lines lines).
Proof.
  unfold _detect_paragraphs.
  pose proof (para_from_spec lines 0 [] [] (fun _ => eq_refl) (Forall_nil _)) as H.
  unfold finish_paragraphs in H. exact H.
Qed.

Lemma detect_paragraphs_solid (lines : list str) :
  Forall starts_solid (_detect_paragraphs lines).
Proof.
  rewrite detect_paragraphs_refines.
  apply spec_paragraphs_solid, nonblank_lines_solid.
Qed.

Lemma solid_nonblank (p : str) : starts_solid p -> nonempty (strip p) = true.
Proof.
  destruct p as [|c p]; [contradiction|]. intros H.
  unfold strip. simpl lstrip. unfold starts_solid in H. rewrite H.
  destruct (rstrip_cons c p H) as [s' ->]. reflexivity.
Qed.

(** C9: [_detect_paragraphs] groups the non-blank, trimmed lines as the
    specification says: the first line opens a paragraph; a line that
    begins with an upper-case letter while the paragraph accumulated so
    far ends with a period opens the next one; every other line is added
    to the current paragraph after a space.  The paragraphs come in the
    order of the lines and none is empty. *)
Theorem detect_paragraphs_spec (lines : list str) :
  _detect_paragraphs lines = spec_paragraphs (nonblank_lines lines) /\
  Forall (fun p => p <> []) (_detect_paragraphs lines).
Proof.
  split; [apply detect_paragraphs_refines|].
  eapply Forall_impl; [|apply detect_paragraphs_solid].
  intros p H. destruct p; [contradiction | discriminate].
Qed.

(** ** Content renderer *)

Lemma startswith_refl (s : str) : startswith s s = true.
Proof. induction s as [|c s IH]; simpl; [reflexivity|]. now rewrite eqc_refl, IH. Qed.

Lemma contains_refl (s : str) : contains s s = true.
Proof. destruct s; simpl; rewrite ?eqc_refl, ?startswith_refl; reflexivity. Qed.

Lemma render_fold (name : str) (ps : list str) :
  forall html, Forall starts_solid ps ->
    fold_left (add_paragraph name) ps html =
    html ++ concat (map paragraph_element (body_paragraphs name ps)).
Proof.
  unfold body_paragraphs.
  induction ps as [|p ps IH]; intros html H; cbn [fold_left filter].
  - cbn. now rewrite app_nil_r.
  - inversion H; subst. rewrite IH by assumption.
    unfold add_paragraph. rewrite solid_nonblank by assumption.
    rewrite andb_true_r. destruct (contains name p); cbn [negb map concat].
    + reflexivity.
    + unfold paragraph_element. now rewrite <- !app_assoc.
Qed.

Lemma render_chapter_body (i : nat) (chapter_text chapter_name : str) :
  content (render_chapter i (chapter_text, chapter_name)) =
  heading_element chapter_name ++
  concat (map paragraph_element
            (body_paragraphs chapter_name
               (_detect_paragraphs (splitlines chapter_text)))).
Proof.
  unfold render_chapter. cbn [content].
  apply render_fold, detect_paragraphs_solid.
Qed.

Lemma body_paragraphs_In (name p : str) (ps : list str) :
  In p (body_paragraphs name ps) <-> In p ps /\ contains name p = false.
Proof.
  unfold body_paragraphs. rewrite filter_In.
  destruct (contains name p); simpl; intuition congruence.
Qed.

(** C8, as stated, fails: the paragraph "One." is neither empty nor equal
    to the title "Chapter One.", and the rendered chapter leaves it out. *)
Lemma exact_duplicate_counterexample :
  _detect_paragraphs (splitlines (fst sample_chapter)) = [py "One."; py "Two."] /\
  content (render_chapter 1 sample_chapter) = py "<h1>Chapter One.</h1><p>Two.</p>" /\
  content (render_chapter 1 sample_chapter) <>
    heading_element (snd sample_chapter) ++
    concat (map paragraph_element
              (exact_body (snd sample_chapter)
                 (_detect_paragraphs (splitlines (fst sample_chapter))))).
Proof.
  split; [vm_compute; reflexivity|]. split; [vm_compute; reflexivity|].
  vm_compute. discriminate.
Qed.

(** C8, amended: the content of a rendered chapter is one heading element
    with the chapter title, followed by one paragraph element for each
    paragraph of the chapter whose text does not occur inside the title,
    in order.  The paragraphs left out include every exact duplicate of
    the title, so no paragraph element repeats the title; and no
    paragraph element is empty. *)
Theorem render_chapter_spec (i : nat) (chapter_text chapter_name : str) :
  title (render_chapter i (chapter_text, chapter_name)) = chapter_name /\
  content (render_chapter i (chapter_text, chapter_name)) =
    heading_element chapter_name ++
    concat (map paragraph_element
              (body_paragraphs chapter_name
                 (_detect_paragraphs (splitlines chapter_text)))) /\
  (forall p,
     In p (body_paragraphs chapter_name
             (_detect_paragraphs (splitlines chapter_text))) <->
     In p (_detect_paragraphs (splitlines chapter_text)) /\
     contains chapter_name p = false) /\
  ~ In chapter_name
      (body_paragraphs chapter_name
         (_detect_paragraphs (splitlines chapter_text))) /\
  ~ In [] (body_paragraphs chapter_name
             (_detect_paragraphs (splitlines chapter_text))).
Proof.
  split; [reflexivity|]. split; [apply render_chapter_body|].
  split; [intros p; apply body_paragraphs_In|]. split.
  - rewrite body_paragraphs_In, contains_refl. intros [_ H]. discriminate.
  - rewrite body_paragraphs_In. intros [_ H]. now destruct chapter_name.
Qed.

(** C10: the renderer tests [para not in chapter_name], a substring test.
    A paragraph whose text occurs anywhere inside the title adds nothing
    to the content, whether or not it equals the title; in the sample
    chapter the paragraph "One." differs from the title "Chapter One."
    and is dropped. *)
Theorem substring_paragraph_dropped :
  (forall i chapter_text chapter_name p,
     In p (_detect_paragraphs (splitlines chapter_text)) ->
     contains chapter_name p = true ->
     (forall html, add_paragraph chapter_name html p = html) /\
     ~ In p (body_paragraphs chapter_name
               (_detect_paragraphs (splitlines chapter_text))) /\
     content (render_chapter i (chapter_text, chapter_name)) =
       heading_element chapter_name ++
       concat (map paragraph_element
                 (body_paragraphs chapter_name
                    (_detect_paragraphs (splitlines chapter_text))))) /\
  (In (py "One.") (_detect_paragraphs (splitlines (fst sample_chapter))) /\
   py "One." <> snd sample_chapter /\
   contains (snd sample_chapter) (py "One.") = true /\
   content (render_chapter 1 sample_chapter) = py "<h1>Chapter One.</h1><p>Two.</p>").
Proof.
  split.
  - intros i chapter_text chapter_name p Hin Hsub. split; [|split].
    + intros html. unfold add_paragraph. now rewrite Hsub.
    + rewrite body_paragraphs_In. intros [_ H]. congruence.
    + apply render_chapter_body.
  - split; [vm_compute; tauto|]. split; [vm_compute; discriminate|].
    split; vm_compute; reflexivity.
Qed.

Lemma substring_paragraph_dropped_witness :
  In (py "One.") (_detect_paragraphs (splitlines (fst sample_chapter))) /\
  contains (snd sample_chapter) (py "One.") = true /\
  ~ In (py "One.")
      (body_paragraphs (snd sample_chapter)
         (_detect_paragraphs (splitlines (fst sample_chapter)))).
Proof.
  assert (Hin : In (py "One.") (_detect_paragraphs (splitlines (fst sample_chapter))))
    by (vm_compute; tauto).
  assert (Hsub : contains (snd sample_chapter) (py "One.") = true)
    by (vm_compute; reflexivity).
  split; [exact Hin|]. split; [exact Hsub|].
  exact (proj1 (proj2 (proj1 substring_paragraph_dropped 1
                         (fst sample_chapter) (snd sample_chapter) (py "One.")
                         Hin Hsub))).
Defined.

(** ** Chapter boundary detector *)

(** *** The boundaries increase *)

Lemma increasing_replace_last (l : list nat) :
  forall a m n, increasing_upto n (l ++ [a]) -> a <= m -> n <= m ->
                increasing_upto m (l ++ [m]).
Proof.
  induction l as [|x l IH]; intros a m n H Ha Hn; simpl in *.
  - repeat split; lia.
  - destruct H as (Hx & Hnext & Hrest). split; [lia|]. split.
    + destruct l as [|y l]; simpl in *; lia.
    + eapply IH; eauto.
Qed.

Lemma increasing_push (l : list nat) :
  forall a m n, increasing_upto n (l ++ [a]) -> a < m -> n <= m ->
                increasing_upto m ((l ++ [a]) ++ [m]).
Proof.
  induction l as [|x l IH]; intros a m n H Ha Hn; simpl in *.
  - repeat split; lia.
  - destruct H as (Hx & Hnext & Hrest). split; [lia|]. split.
    + destruct l as [|y l]; simpl in *; lia.
    + eapply IH; eauto.
Qed.

Lemma increasing_drop (l : list nat) :
  forall x a n, increasing_upto n (l ++ [x; a]) -> increasing_upto n (l ++ [a]).
Proof.
  induction l as [|y l IH]; intros x a n H; simpl in *.
  - tauto.
  - destruct H as (Hy & Hnext & Hrest). split; [lia|]. split.
    + destruct l as [|z l]; simpl in *; lia.
    + eapply IH; eauto.
Qed.

Lemma increasing_pop (l : list nat) (a n : nat) :
  increasing_upto n (l ++ [a]) -> increasing_upto n (removelast l ++ [a]).
Proof.
  induction l as [|x l' _] using rev_ind; [trivial|].
  rewrite removelast_last, <- app_assoc. apply increasing_drop.
Qed.

Lemma removelast_same_length (A B : Type) (l : list A) (m : list B) :
  length m = length l -> length (removelast m) = length (removelast l).
Proof.
  induction l as [|x l' _] using rev_ind;
    induction m as [|y m' _] using rev_ind; intros H;
    rewrite ?length_app in H; simpl in H; try lia; [reflexivity|].
  rewrite !removelast_last. lia.
Qed.

Lemma scan_step_inv (lines : list str) (i : nat) (line : str) (st : scan_state) :
  scan_inv i st -> scan_inv (S i) (scan_step lines i line st).
Proof.
  intros [Hinc Hlen].
  assert (Same : increasing_upto (S i) (start_indices st ++ [S i]))
    by (eapply increasing_replace_last; eauto).
  assert (Pop : increasing_upto (S i) (removelast (start_indices st) ++ [S i])).
  { eapply increasing_replace_last with (a := i) (n := i); [|lia|lia].
    now apply increasing_pop. }
  assert (Push : increasing_upto (S i) ((start_indices st ++ [i]) ++ [S i]))
    by (eapply increasing_push; eauto).
  unfold scan_step, scan_inv.
  repeat match goal with
         | |- context [if ?b then _ else _] => destruct b
         end; cbn [start_indices original_chapter_names];
    (split; [assumption|]);
    rewrite ?length_app; cbn [length]; try lia;
    now apply removelast_same_length.
Qed.

Lemma scan_from_inv (lines rest : list str) :
  forall i st, scan_inv i st ->
               scan_inv (i + length rest) (scan_from lines i rest st).
Proof.
  induction rest as [|line rest IH]; intros i st H; simpl.
  - now rewrite Nat.add_0_r.
  - replace (i + S (length rest)) with (S i + length rest) by lia.
    now apply IH, scan_step_inv.
Qed.

Lemma scan_invariant (lines : list str) : scan_inv (length lines) (scan lines).
Proof.
  apply (scan_from_inv lines lines 0 scan_init).
  split; [simpl; repeat split; lia | reflexivity].
Qed.

Lemma boundaries_increasing (lines : list str) :
  increasing_upto (length lines) (boundaries lines).
Proof. apply scan_invariant. Qed.

(** *** The spans between increasing boundaries cover the lines *)

Lemma spans_cover (A : Type) (l : list A) (bs : list nat) :
  forall a, increasing_upto (length l) (a :: bs) ->
            last (a :: bs) 0 = length l ->
            concat (spans_between l (a :: bs)) = skipn a l.
Proof.
  induction bs as [|b bs IH]; intros a H Hlast.
  - simpl in *. subst a. now rewrite skipn_all.
  - change (spans_between l (a :: b :: bs))
      with (slice l a b :: spans_between l (b :: bs)).
    cbn [concat]. destruct H as (Ha & Hab & Hrest).
    rewrite IH; [|assumption|exact Hlast].
    unfold slice. replace b with ((b - a) + a) at 2 by lia.
    rewrite <- skipn_skipn. apply firstn_skipn.
Qed.

Lemma spans_nonempty (A : Type) (l : list A) (bs : list nat) :
  forall a, increasing_upto (length l) (a :: bs) ->
            Forall (fun sp => sp <> []) (spans_between l (a :: bs)).
Proof.
  induction bs as [|b bs IH]; intros a H.
  - constructor.
  - change (spans_between l (a :: b :: bs))
      with (slice l a b :: spans_between l (b :: bs)).
    destruct H as (Ha & Hab & Hrest). constructor.
    + unfold slice. intros E. apply (f_equal (@length A)) in E.
      destruct Hrest as (Hb & _).
      rewrite length_firstn, length_skipn in E. simpl in E. lia.
    + now apply IH.
Qed.

(** *** The index loop builds those spans *)

Lemma map_seq_S (A : Type) (f : nat -> option A) (n : nat) :
  forall a, map f (seq (S a) n) = map (fun i => f (S i)) (seq a n).
Proof. intros a. now rewrite <- seq_shift, map_map. Qed.

Lemma spans_by_index (lines : list str) (starts : list nat) :
  all_some (map (span_at lines starts) (range 0 (length starts - 1))) =
  Some (spans_between lines starts).
Proof.
  induction starts as [|a starts IH]; [reflexivity|].
  destruct starts as [|b starts]; [reflexivity|].
  replace (length (a :: b :: starts) - 1) with (S (length (b :: starts) - 1))
      by (simpl; lia).
  unfold range in *. rewrite Nat.sub_0_r in *. cbn [seq map].
  rewrite map_seq_S. cbn [all_some span_at nth_error Nat.add].
  unfold span_at in IH. cbn [nth_error Nat.add] in IH.
  change (spans_between lines (a :: b :: starts))
    with (slice lines a b :: spans_between lines (b :: starts)).
  match goal with |- context [all_some ?l] =>
    match type of IH with all_some ?m = _ => change l with m end end.
  now rewrite IH.
Qed.

Lemma chapters_by_index (lines : list str) (starts : list nat) :
  forall names, length names = length starts - 1 ->
  all_some (map (chapter_at lines starts names) (range 0 (length starts - 1))) =
  Some (combine (map (fun sp => strip (join [NL] sp)) (spans_between lines starts))
                names).
Proof.
  induction starts as [|a starts IH]; intros names Hn.
  - reflexivity.
  - destruct starts as [|b starts]; [reflexivity|].
    destruct names as [|name names]; [simpl in Hn; lia|].
    replace (length (a :: b :: starts) - 1) with (S (length (b :: starts) - 1))
      by (simpl; lia).
    unfold range in *. rewrite Nat.sub_0_r in *. cbn [seq map].
    rewrite map_seq_S.
    specialize (IH names). unfold chapter_at, span_at in *.
    cbn [all_some nth_error Nat.add] in *.
    change (spans_between lines (a :: b :: starts))
      with (slice lines a b :: spans_between lines (b :: starts)).
    cbn [map combine].
    match goal with |- context [all_some ?l] =>
      match type of IH with _ -> all_some ?m = _ => change l with m end end.
    rewrite IH; [reflexivity | simpl in *; lia].
Qed.

Lemma spans_between_length (A : Type) (l : list A) (bs : list nat) :
  length (spans_between l bs) = length bs - 1.
Proof.
  induction bs as [|a bs IH]; [reflexivity|].
  destruct bs as [|b bs]; [reflexivity|].
  change (spans_between l (a :: b :: bs))
    with (slice l a b :: spans_between l (b :: bs)).
  cbn [length] in *. lia.
Qed.

Lemma map_fst_combine_same (A B : Type) (l : list A) :
  forall m : list B, length l = length m -> map fst (combine l m) = l.
Proof.
  induction l as [|x l IH]; intros [|y m] H; simpl in *; try congruence.
  f_equal. apply IH. lia.
Qed.

Lemma boundaries_last (lines : list str) :
  last (boundaries lines) 0 = length lines.
Proof. unfold boundaries. apply last_last. Qed.

(** *** Text without headings *)

Lemma scan_step_plain (lines : list str) (i : nat) (line : str) (st : scan_state) :
  plain_line line = true ->
  start_indices (scan_step lines i line st) = start_indices st.
Proof.
  unfold plain_line, scan_step. intros H.
  apply andb_prop in H as [H1 H2].
  apply negb_true_iff in H1, H2. rewrite H1, H2.
  now destruct (negb _).
Qed.

Lemma scan_from_plain (lines rest : list str) :
  forall i st, forallb plain_line rest = true ->
               start_indices (scan_from lines i rest st) = start_indices st.
Proof.
  induction rest as [|line rest IH]; intros i st H; simpl in *; [reflexivity|].
  apply andb_prop in H as [H1 H2].
  rewrite IH by assumption. now apply scan_step_plain.
Qed.

(** C1 fails on the code: the final boundary is appended before the
    test [if start_indices], so the fallback branch is never taken.  On
    a text without heading lines [_detect_chapters] returns no chapter at
    all and hands every line back as front matter. *)
Theorem no_heading_no_chapter (pdf_text : str) :
  forallb plain_line (splitlines pdf_text) = true ->
  _detect_chapters pdf_text = Some ([], splitlines pdf_text) /\
  _detect_chapters pdf_text <> Some ([(pdf_text, py "Chapter 1")], []).
Proof.
  intros H.
  assert (E : _detect_chapters pdf_text = Some ([], splitlines pdf_text)).
  { unfold _detect_chapters, boundaries, scan.
    rewrite scan_from_plain by assumption.
    cbn. now rewrite firstn_all. }
  split; [exact E|]. rewrite E. discriminate.
Qed.

Lemma no_heading_no_chapter_witness :
  forallb plain_line (splitlines (py "Hello world.")) = true /\
  _detect_chapters (py "Hello world.") = Some ([], [py "Hello world."]).
Proof.
  split; [vm_compute; reflexivity|].
  exact (proj1 (no_heading_no_chapter (py "Hello world.") eq_refl)).
Defined.

(** *** Sequence validation on sample texts *)

(** C3, as stated, fails: when the lines "Chapter 1" to "Chapter 5"
    follow one another, every second one comes right after an accepted
    heading, is rejected and retracts the heading before it; only the
    last start remains and the counter ends at 2, not 6. *)
Lemma five_headings_counterexample :
  splitlines (join [NL] five_headings) = five_headings /\
  start_indices (scan five_headings) = [4] /\
  chapter_number (scan five_headings) = 2%Z /\
  ~ (start_indices (scan five_headings) = [0; 1; 2; 3; 4] /\
     chapter_number (scan five_headings) = 6%Z).
Proof.
  split; [vm_compute; reflexivity|]. split; [vm_compute; reflexivity|].
  split; [vm_compute; reflexivity|].
  intros [H _]. vm_compute in H. discriminate.
Qed.

(** What the loop does on body text, and on a heading after body text. *)
Lemma scan_step_body (lines : list str) (i : nat) (line : str) (st : scan_state) :
  plain_line line = true ->
  scan_step lines i line st =
  if nonempty (_strip_tags (strip line)) then after_body st else st.
Proof.
  unfold plain_line, scan_step. intros H.
  apply andb_prop in H as [H1 H2].
  apply negb_true_iff in H1, H2. rewrite H1, H2.
  now destruct (nonempty _).
Qed.

Lemma scan_from_body (lines body : list str) :
  forall i st, forallb plain_line body = true ->
    scan_from lines i body st =
    if existsb (fun line => nonempty (_strip_tags (strip line))) body
    then after_body st else st.
Proof.
  induction body as [|line body IH]; intros i st H; [reflexivity|].
  cbn [forallb] in H. apply andb_prop in H as [H1 H2].
  cbn [scan_from existsb]. rewrite scan_step_body, IH by assumption.
  destruct (nonempty (_strip_tags (strip line))); cbn [orb]; [|reflexivity].
  now destruct (existsb _ body).
Qed.

Lemma scan_step_numbered (lines : list str) (i : nat) (h : str) (st : scan_state) :
  numbered_heading h = true -> prev_is_chapter st = false ->
  start_indices (scan_step lines i h st) = start_indices st ++ [i] /\
  chapter_number (scan_step lines i h st) = (chapter_number st + 1)%Z /\
  prev_is_chapter (scan_step lines i h st) = true /\
  consecutive_chapter_index (scan_step lines i h st) = 0.
Proof.
  unfold numbered_heading, scan_step. intros H Hp.
  apply andb_prop in H as [H H3]. apply andb_prop in H as [H1 H2].
  apply negb_true_iff in H3. rewrite H1, H2, H3, Hp. cbn. auto.
Qed.

Lemma scan_from_app (lines a b : list str) :
  forall i st, scan_from lines i (a ++ b) st =
               scan_from lines (i + length a) b (scan_from lines i a st).
Proof.
  induction a as [|x a IH]; intros i st; cbn [app scan_from length].
  - now rewrite Nat.add_0_r.
  - rewrite IH. f_equal. lia.
Qed.

Lemma scan_from_chaptered (lines headings : list str) :
  forall bodies i st,
    length bodies = length headings ->
    forallb numbered_heading headings = true ->
    forallb body_text bodies = true ->
    prev_is_chapter st = false ->
    start_indices (scan_from lines i (chaptered headings bodies) st) =
      start_indices st ++ heading_positions i bodies /\
    chapter_number (scan_from lines i (chaptered headings bodies) st) =
      (chapter_number st + Z.of_nat (length headings))%Z /\
    prev_is_chapter (scan_from lines i (chaptered headings bodies) st) = false.
Proof.
  induction headings as [|h headings IH]; intros [|body bodies] i st Hl Hh Hb Hp;
    try discriminate Hl.
  - cbn. rewrite app_nil_r, Z.add_0_r. auto.
  - cbn [forallb] in Hh, Hb. apply andb_prop in Hh as [Hh1 Hh2].
    apply andb_prop in Hb as [Hb1 Hb2]. unfold body_text in Hb1.
    apply andb_prop in Hb1 as [Hplain Hsome].
    cbn [chaptered scan_from heading_positions].
    destruct (scan_step_numbered lines i h st Hh1 Hp) as (E1 & E2 & _ & _).
    rewrite scan_from_app, (scan_from_body lines body) by assumption.
    rewrite Hsome.
    set (st1 := after_body (scan_step lines i h st)).
    destruct (IH bodies (S i + length body) st1) as (F1 & F2 & F3);
      try assumption; [simpl in Hl; lia | reflexivity |].
    rewrite F1, F2, F3. subst st1. cbn [after_body start_indices chapter_number].
    rewrite E1, E2, <- app_assoc. cbn [app length].
    repeat split. lia.
Qed.

(** C3, amended: when each of the headings "Chapter 1" to "Chapter 5" is
    followed by body text (one line or more that neither pattern takes
    for a heading, one of them at least not blank), the loop of
    [_detect_chapters] registers all five, at the indices where they
    stand, and [chapter_number] ends at 6.  When a "Chapter 1" that the
    loop has just registered is followed at once by a second "Chapter 1",
    the second one is not registered and the counter is not incremented:
    the run of two headings also retracts the first one, so that the
    starts and the counter are again what they were before it. *)
Theorem sequence_validation (bodies : list (list str)) (lines : list str)
    (i : nat) (st : scan_state) :
  (length bodies = 5 -> forallb body_text bodies = true ->
   start_indices (scan (chaptered five_headings bodies)) = heading_positions 0 bodies /\
   chapter_number (scan (chaptered five_headings bodies)) = 6%Z) /\
  (prev_is_chapter st = false ->
   let st1 := scan_step lines i (py "Chapter 1") st in
   let st2 := scan_step lines (S i) (py "Chapter 1") st1 in
   start_indices st1 = start_indices st ++ [i] /\
   chapter_number st1 = (chapter_number st + 1)%Z /\
   start_indices st2 = start_indices st /\
   chapter_number st2 = chapter_number st /\
   prev_is_chapter st2 = false).
Proof.
  split.
  - intros Hl Hb. unfold scan.
    destruct (scan_from_chaptered (chaptered five_headings bodies) five_headings
                bodies 0 scan_init Hl eq_refl Hb eq_refl) as (E1 & E2 & _).
    rewrite E1, E2. split; reflexivity.
  - intros Hp. cbn zeta.
    destruct (scan_step_numbered lines i (py "Chapter 1") st eq_refl Hp)
      as (E1 & E2 & E3 & E4).
    split; [exact E1|]. split; [exact E2|].
    set (st1 := scan_step lines i (py "Chapter 1") st) in *.
    unfold scan_step at 1 2 3.
    change (_strip_tags (strip (py "Chapter 1"))) with (py "Chapter 1").
    change (nonempty (py "Chapter 1")) with true.
    change (rmatch chapter_pattern (py "Chapter 1")) with true.
    rewrite E3, E4. cbn [negb orb Nat.eqb andb].
    rewrite orb_true_r, E1.
    replace (nonempty_list (start_indices st ++ [i])) with true
      by (now destruct (start_indices st)).
    cbn [start_indices chapter_number prev_is_chapter].
    rewrite removelast_last, E2. repeat split. lia.
Qed.

Lemma sequence_validation_witness :
  (start_indices
     (scan (chaptered five_headings
              [[py "It began."]; [py "Who was"; py "there?"]; [py "No."];
               [[]; py "The fourth body line."]; [py "It ended."]])) = [0; 2; 5; 7; 10] /\
   chapter_number
     (scan (chaptered five_headings
              [[py "It began."]; [py "Who was"; py "there?"]; [py "No."];
               [[]; py "The fourth body line."]; [py "It ended."]])) = 6%Z) /\
  start_indices
    (scan_step repeated_heading 1 (py "Chapter 1")
       (scan_step repeated_heading 0 (py "Chapter 1") scan_init)) = [].
Proof.
  split.
  - apply (proj1 (sequence_validation
             [[py "It began."]; [py "Who was"; py "there?"]; [py "No."];
              [[]; py "The fourth body line."]; [py "It ended."]]
             [] 0 scan_init)); vm_compute; reflexivity.
  - exact (proj1 (proj2 (proj2 (proj2 (sequence_validation [] repeated_heading 0 scan_init)
                                   eq_refl)))).
Defined.

(** The number of a heading is compared with [chapter_number] only when
    the whole line is a numeral: a line "Chapter 1" that comes back after
    body text converts to itself, is not numeric, and is accepted again. *)
Remark heading_repeated_after_body :
  start_indices (scan (map py ["Chapter 1"; "The body text."; "Chapter 1"]%string)) = [0; 2] /\
  chapter_number (scan (map py ["Chapter 1"; "The body text."; "Chapter 1"]%string)) = 3%Z /\
  start_indices (scan (map py ["1"; "The body text."; "1"]%string)) = [0] /\
  chapter_number (scan (map py ["1"; "The body text."; "1"]%string)) = 2%Z.
Proof. repeat split; vm_compute; reflexivity. Qed.

(** ** Line merger *)

(** *** Lines of a text *)

Lemma splitlines_nil_inv (s : str) : splitlines s = [] -> s = [].
Proof.
  destruct s as [|c r]; [reflexivity|]. simpl.
  destruct (is_linebreak c); [discriminate|].
  destruct (splitlines r); discriminate.
Qed.

Lemma is_linebreak_NL : is_linebreak NL = true.
Proof. reflexivity. Qed.

(** The lines of [a ++ NL :: x] are those of [a] closed by the newline,
    then those of [x]. *)
Lemma splitlines_newline_bounded (n : nat) :
  forall a x, length a <= n ->
    splitlines (a ++ NL :: x) = splitlines (a ++ [NL]) ++ splitlines x.
Proof.
  induction n as [|n IH]; intros a x Hn.
  - destruct a; [reflexivity | simpl in Hn; lia].
  - destruct a as [|c a]; [reflexivity|].
    simpl in Hn. cbn [app splitlines].
    destruct (is_linebreak c) eqn:Hc.
    + destruct (eqc c CR) eqn:Hcr.
      * destruct a as [|d a].
        -- reflexivity.
        -- cbn [app]. destruct (eqc d NL).
           ++ simpl in Hn. now rewrite IH by lia.
           ++ pose proof (IH (d :: a) x (le_S_n _ _ Hn)) as E. cbn [app] in E.
              now rewrite E.
      * now rewrite IH by lia.
    + rewrite IH by lia.
      destruct (splitlines (a ++ [NL])) as [|l ls] eqn:E.
      * apply splitlines_nil_inv in E. now destruct a.
      * reflexivity.
Qed.

Lemma splitlines_newline (a x : str) :
  splitlines (a ++ NL :: x) = splitlines (a ++ [NL]) ++ splitlines x.
Proof. now apply (splitlines_newline_bounded (length a)). Qed.

(** A final newline adds at most one empty line. *)
Lemma splitlines_final_newline_bounded (n : nat) :
  forall a, length a <= n ->
    splitlines (a ++ [NL]) = splitlines a \/
    splitlines (a ++ [NL]) = splitlines a ++ [[]].
Proof.
  induction n as [|n IH]; intros a Hn.
  - destruct a; [now right | simpl in Hn; lia].
  - destruct a as [|c a]; [now right|].
    simpl in Hn. cbn [app splitlines].
    destruct (is_linebreak c) eqn:Hc.
    + destruct (eqc c CR) eqn:Hcr.
      * destruct a as [|d a].
        -- now left.
        -- cbn [app]. destruct (eqc d NL).
           ++ simpl in Hn. destruct (IH a ltac:(lia)) as [E|E]; rewrite E; auto.
           ++ destruct (IH (d :: a) (le_S_n _ _ Hn)) as [E|E];
                cbn [app] in E; rewrite E; auto.
      * destruct (IH a ltac:(lia)) as [E|E]; rewrite E; auto.
    + destruct a as [|d a]; [now left|].
      destruct (IH (d :: a) (le_S_n _ _ Hn)) as [E|E]; rewrite E.
      * now left.
      * right. destruct (splitlines (d :: a)) as [|l ls] eqn:E'; [|reflexivity].
        apply splitlines_nil_inv in E'. discriminate.
Qed.

Lemma splitlines_one_line (s : str) :
  no_linebreak s = true -> splitlines (s ++ [NL]) = [s].
Proof.
  induction s as [|c s IH]; [reflexivity|]. intros H.
  simpl in H. apply andb_prop in H as [Hc Hs]. apply negb_true_iff in Hc.
  cbn [app splitlines]. rewrite Hc, IH by assumption. reflexivity.
Qed.

Lemma splitlines_unbroken (s : str) :
  no_linebreak s = true -> s <> [] -> splitlines s = [s].
Proof.
  intros H Hs. pose proof (splitlines_one_line s H) as E.
  destruct (splitlines_final_newline_bounded (length s) s (le_n _)) as [X|X];
    rewrite X in E; [exact E|].
  destruct (splitlines s) as [|l ls] eqn:E'.
  - apply splitlines_nil_inv in E'. contradiction.
  - destruct ls; simpl in E; [discriminate|].
    injection E as _ E. now destruct ls.
Qed.

(** *** Non-blank lines *)

Lemma nonblank_lines_app (a b : list str) :
  nonblank_lines (a ++ b) = nonblank_lines a ++ nonblank_lines b.
Proof. unfold nonblank_lines. now rewrite map_app, filter_app. Qed.

Lemma nonblank_lines_trimmed (line : str) :
  strip line <> [] -> nonblank_lines [strip line] = [strip line].
Proof.
  intros H. unfold nonblank_lines. cbn [map filter]. rewrite strip_idem.
  apply nonempty_true in H. now rewrite H.
Qed.

Lemma nonblank_final_newline (a : str) :
  nonblank_lines (splitlines (a ++ [NL])) = nonblank_lines (splitlines a).
Proof.
  destruct (splitlines_final_newline_bounded (length a) a (le_n _)) as [E|E];
    rewrite E; [reflexivity|].
  rewrite nonblank_lines_app. apply app_nil_r.
Qed.

(** *** One turn of the merger *)

Lemma merge_step_appends (T : str) (b : bool) (line : str) :
  fst (merge_step (T, b) line) = T ++ chunk T b line.
Proof.
  unfold merge_step, chunk.
  destruct (negb (nonempty (strip line))); [now rewrite app_nil_r|].
  destruct (is_heading _).
  { cbn [fst]. destruct (nonempty T); now rewrite <- ?app_assoc. }
  destruct (nonempty T && negb (endswith_any T terminals)); [reflexivity|].
  cbn [fst].
  destruct (nonempty T); destruct (_ && b);
    rewrite <- ?app_assoc, ?app_nil_r; reflexivity.
Qed.

Lemma merge_from_extends (lines : list str) :
  forall st, exists post, fst (merge_from st lines) = fst st ++ post.
Proof.
  induction lines as [|line lines IH]; intros [T b]; cbn [merge_from fold_left].
  - exists []. now rewrite app_nil_r.
  - destruct (IH (merge_step (T, b) line)) as [post E].
    exists (chunk T b line ++ post). unfold merge_from in E.
    now rewrite E, merge_step_appends, <- app_assoc.
Qed.

Lemma merge_from_app (st : str * bool) (a b : list str) :
  merge_from st (a ++ b) = merge_from (merge_from st a) b.
Proof. apply fold_left_app. Qed.

Lemma merge_step_blank (st : str * bool) (line : str) :
  strip line = [] -> merge_step st line = st.
Proof. unfold merge_step. destruct st. now intros ->. Qed.

Lemma merge_step_trimmed (st : str * bool) (line : str) :
  merge_step st (strip line) = merge_step st line.
Proof. unfold merge_step. now rewrite strip_idem. Qed.

Lemma merge_from_cons (st : str * bool) (line : str) (lines : list str) :
  merge_from st (line :: lines) = merge_from (merge_step st line) lines.
Proof. reflexivity. Qed.

Lemma merge_from_nonblank (lines : list str) :
  forall st, merge_from st (nonblank_lines lines) = merge_from st lines.
Proof.
  induction lines as [|line lines IH]; intros st; [reflexivity|].
  rewrite nonblank_lines_cons, (merge_from_cons st line).
  destruct (nonempty (strip line)) eqn:E.
  - rewrite merge_from_cons, merge_step_trimmed. apply IH.
  - apply nonempty_false in E. rewrite merge_step_blank by assumption. apply IH.
Qed.

Lemma is_heading_nil : is_heading (_strip_tags []) = false.
Proof. vm_compute. reflexivity. Qed.

Lemma heading_nonblank (line : str) :
  is_heading (_strip_tags (strip line)) = true -> nonempty (strip line) = true.
Proof.
  destruct (strip line); [|reflexivity].
  rewrite is_heading_nil. discriminate.
Qed.

Lemma merge_step_heading (T : str) (b : bool) (line : str) :
  is_heading (_strip_tags (strip line)) = true ->
  merge_step (T, b) line =
  ((if nonempty T then T ++ [NL] else T) ++ [NL] ++ strip line ++ [NL], true).
Proof.
  intros H. unfold merge_step.
  now rewrite (heading_nonblank line H), H.
Qed.

(** After a newline, whatever the merger adds begins with a newline. *)
Lemma merge_from_after_newline (lines : list str) :
  forall T b, exists post,
    fst (merge_from (T ++ [NL], b) lines) = (T ++ [NL]) ++ post /\
    (post = [] \/ exists q, post = NL :: q).
Proof.
  induction lines as [|line lines IH]; intros T b; cbn [merge_from fold_left].
  - exists []. rewrite app_nil_r. auto.
  - destruct (nonempty (strip line)) eqn:E.
    + destruct (merge_from_extends lines (merge_step (T ++ [NL], b) line))
        as [post Hpost].
      unfold merge_from in Hpost. rewrite Hpost, merge_step_appends.
      exists (chunk (T ++ [NL]) b line ++ post).
      split; [now rewrite <- !app_assoc | right].
      unfold chunk. rewrite E, endswith_newline.
      rewrite (nonempty_app_r T [NL] eq_refl). cbn [negb andb].
      destruct (is_heading _); cbn [app]; eauto.
    + apply nonempty_false in E. rewrite merge_step_blank by assumption.
      apply IH.
Qed.

(** C4: a line that the merger classifies as a heading appears in the
    output between two newlines, with its markup; before it the output
    is empty or ends in a newline, and after it the output is empty or
    goes on with a newline.  So no neighbouring line is joined to it, and
    when the heading holds no line boundary it is a line of its own in
    the output, with an empty line before it and, when anything follows,
    an empty line after it. *)
Theorem heading_stands_alone (before after : list str) (h : str) :
  is_heading (_strip_tags (strip h)) = true ->
  exists pre post,
    _merge_split_lines (before ++ h :: after) =
      pre ++ [NL] ++ strip h ++ [NL] ++ post /\
    pre = (if nonempty (_merge_split_lines before)
           then _merge_split_lines before ++ [NL] else []) /\
    (post = [] \/ exists q, post = NL :: q) /\
    (no_linebreak (strip h) = true ->
     exists above below,
       splitlines (_merge_split_lines (before ++ h :: after)) =
         above ++ [[]; strip h] ++ below /\
       (below = [] \/ exists more, below = [] :: more)).
Proof.
  intros H. unfold _merge_split_lines.
  rewrite merge_from_app, merge_from_cons.
  destruct (merge_from merge_init before) as [T b].
  rewrite merge_step_heading by assumption. cbn [fst].
  set (pre := if nonempty T then T ++ [NL] else T).
  replace (pre ++ [NL] ++ strip h ++ [NL]) with ((pre ++ [NL] ++ strip h) ++ [NL])
    by now rewrite <- !app_assoc.
  destruct (merge_from_after_newline after (pre ++ [NL] ++ strip h) true)
    as (post & E & Hpost).
  rewrite E. clear E.
  exists pre, post. split; [now rewrite <- !app_assoc|].
  split; [subst pre; now destruct T|]. split; [exact Hpost|].
  intros Hh. exists (removelast (splitlines (pre ++ [NL]))), (splitlines post).
  split.
  - replace (((pre ++ [NL] ++ strip h) ++ [NL]) ++ post)
      with (pre ++ NL :: (strip h ++ NL :: post))
      by (cbn [app]; now rewrite <- !app_assoc).
    rewrite (splitlines_newline pre), (splitlines_newline (strip h) post),
      (splitlines_one_line (strip h) Hh).
    assert (X : splitlines (pre ++ [NL]) =
                removelast (splitlines (pre ++ [NL])) ++ [[]]).
    { subst pre. destruct T as [|c T']; [reflexivity|].
      cbn [nonempty]. set (T := c :: T').
      replace ((T ++ [NL]) ++ [NL]) with (T ++ NL :: [NL])
        by now rewrite <- app_assoc.
      rewrite (splitlines_newline T [NL]).
      change (splitlines [NL]) with [@nil ascii].
      now rewrite removelast_last. }
    rewrite X at 1. now rewrite <- !app_assoc.
  - destruct Hpost as [->|[q ->]]; [now left | right].
    cbn [splitlines]. rewrite is_linebreak_NL. cbn. eauto.
Qed.

Lemma heading_stands_alone_witness :
  is_heading (_strip_tags (strip (py "<b>Chapter 1</b>"))) = true /\
  exists pre post,
    _merge_split_lines ([py "An opening line"] ++ py "<b>Chapter 1</b>" :: [py "The body."]) =
    pre ++ [NL] ++ strip (py "<b>Chapter 1</b>") ++ [NL] ++ post.
Proof.
  split; [vm_compute; reflexivity|].
  destruct (heading_stands_alone [py "An opening line"] [py "The body."]
              (py "<b>Chapter 1</b>") eq_refl) as (pre & post & E & _).
  exists pre, post. exact E.
Defined.

(** *** Text that is already reflowed *)

Lemma closed_newline (T : str) : closed (T ++ [NL]).
Proof. unfold closed. now rewrite endswith_newline, andb_false_r. Qed.

Lemma nonblank_gap (T : str) :
  nonblank_lines (splitlines (T ++ (if nonempty T then [NL] else []))) =
  nonblank_lines (splitlines T).
Proof.
  destruct (nonempty T); [apply nonblank_final_newline | now rewrite app_nil_r].
Qed.

Lemma nonblank_new_line (T : str) (line : str) :
  strip line <> [] -> no_linebreak (strip line) = true ->
  nonblank_lines (splitlines ((T ++ (if nonempty T then [NL] else [])) ++ strip line)) =
  nonblank_lines (splitlines T) ++ [strip line].
Proof.
  intros Hs Hl. destruct T as [|c T'].
  - cbn [nonempty app]. rewrite (splitlines_unbroken (strip line)) by assumption.
    now apply nonblank_lines_trimmed.
  - cbn [nonempty]. set (T := c :: T'). rewrite <- app_assoc. cbn [app].
    rewrite splitlines_newline, nonblank_lines_app, nonblank_final_newline.
    rewrite (splitlines_unbroken (strip line)) by assumption.
    now rewrite nonblank_lines_trimmed.
Qed.

(** C5, as stated, fails on an output of the merger: the lines "Chapter"
    and "ONE" are no headings and are joined into "Chapter ONE", which
    the second run takes for a heading and sets apart with newlines. *)
Lemma merge_not_idempotent_counterexample :
  _merge_split_lines split_heading = py "Chapter ONE" /\
  _merge_split_lines (splitlines (_merge_split_lines split_heading)) =
    [NL] ++ py "Chapter ONE" ++ [NL] /\
  _merge_split_lines (splitlines (_merge_split_lines split_heading)) <>
    _merge_split_lines split_heading.
Proof.
  split; [vm_compute; reflexivity|]. split; [vm_compute; reflexivity|].
  vm_compute. discriminate.
Qed.


(** *** Text that is already reflowed *)

Lemma strip_fixed (x : str) :
  match x with c :: _ => is_space c = false | [] => True end ->
  match rev x with c :: _ => is_space c = false | [] => True end ->
  strip x = x.
Proof.
  intros H1 H2. unfold strip, rstrip.
  rewrite (lstrip_fixed x H1), (lstrip_fixed (rev x) H2). apply rev_involutive.
Qed.

Lemma no_linebreak_strip (l : str) :
  no_linebreak l = true -> no_linebreak (strip l) = true.
Proof.
  intros H. unfold strip, no_linebreak in *.
  destruct (lstrip_suffix l) as [w E]. destruct (rstrip_prefix (lstrip l)) as [v F].
  rewrite E, forallb_app in H. apply andb_prop in H as [_ H].
  rewrite F, forallb_app in H. now apply andb_prop in H as [H _].
Qed.

Lemma clean_nonblank_lines (lines : list str) :
  forallb no_linebreak lines = true -> Forall clean (nonblank_lines lines).
Proof.
  induction lines as [|l lines IH]; intros H; [constructor|].
  cbn [forallb] in H. apply andb_prop in H as [Hl H].
  rewrite nonblank_lines_cons. destruct (nonempty (strip l)) eqn:E; [|now apply IH].
  constructor; [|now apply IH].
  split; [now apply nonempty_true|]. split; [apply strip_idem|].
  now apply no_linebreak_strip.
Qed.

(** A paragraph line with one more line joined to it is a line as the
    loops see it. *)
Lemma clean_joined (o s : str) : clean o -> clean s -> clean (o ++ [SP] ++ s).
Proof.
  intros (Ho & So & Lo) (Hs & Ss & Ls). split; [now destruct o|]. split.
  - apply strip_fixed.
    + pose proof (strip_head o) as H. rewrite So in H. now destruct o.
    + pose proof (strip_last s) as H. rewrite Ss in H.
      rewrite rev_app_distr. cbn [rev app]. rewrite <- !app_assoc.
      destruct (rev s) as [|c r] eqn:E; [|exact H].
      apply (f_equal (@rev ascii)) in E. rewrite rev_involutive in E. contradiction.
  - unfold no_linebreak in *. rewrite !forallb_app, Lo, Ls. reflexivity.
Qed.

(** *** One turn of the merger on such a line *)

Lemma step_heading (T : str) (b : bool) (s : str) :
  clean s -> is_heading (_strip_tags s) = true ->
  merge_step (T, b) s = ((T ++ line_gap T) ++ [NL] ++ s ++ [NL], true).
Proof.
  intros (Hs & Ss & _) H. unfold merge_step, line_gap. rewrite Ss, H.
  apply nonempty_true in Hs. rewrite Hs. cbn [negb].
  destruct (nonempty T); now rewrite ?app_nil_r.
Qed.

Lemma step_join (T : str) (b : bool) (s : str) :
  clean s -> is_heading (_strip_tags s) = false ->
  nonempty T && negb (endswith_any T terminals) = true ->
  merge_step (T, b) s = (T ++ [SP] ++ s, false).
Proof.
  intros (Hs & Ss & _) H HT. unfold merge_step. rewrite Ss, H, HT.
  apply nonempty_true in Hs. now rewrite Hs.
Qed.

Lemma step_paragraph (T : str) (b : bool) (s : str) :
  clean s -> is_heading (_strip_tags s) = false -> closed T ->
  merge_step (T, b) s =
  (((T ++ line_gap T) ++ s) ++ (if one_word s && b then [NL] else []), false).
Proof.
  intros (Hs & Ss & _) H HT. unfold merge_step, line_gap, one_word.
  unfold closed in HT. rewrite Ss, H, HT.
  apply nonempty_true in Hs. rewrite Hs. cbn [negb].
  destruct (nonempty T); destruct (_ && b); now rewrite ?app_nil_r.
Qed.

(** *** The lines of the output after each kind of turn *)

Lemma lines_paragraph (T s : str) :
  clean s ->
  nonblank_lines (splitlines ((T ++ line_gap T) ++ s)) =
  nonblank_lines (splitlines T) ++ [s].
Proof.
  intros (Hs & Ss & Ls). rewrite <- Ss. apply nonblank_new_line; now rewrite Ss.
Qed.

Lemma lines_heading (T s : str) :
  clean s ->
  nonblank_lines (splitlines ((T ++ line_gap T) ++ [NL] ++ s ++ [NL])) =
  nonblank_lines (splitlines T) ++ [s].
Proof.
  intros (Hs & Ss & Ls).
  replace ((T ++ line_gap T) ++ [NL] ++ s ++ [NL])
    with (((T ++ line_gap T) ++ NL :: s) ++ [NL])
    by (cbn [app]; now rewrite <- !app_assoc).
  rewrite nonblank_final_newline, splitlines_newline, nonblank_lines_app.
  rewrite nonblank_final_newline. unfold line_gap at 1. rewrite nonblank_gap.
  rewrite (splitlines_unbroken s) by assumption.
  rewrite <- Ss, nonblank_lines_trimmed; [reflexivity | now rewrite Ss].
Qed.

Lemma closed_terminated (T s : str) :
  s <> [] -> endswith_any s terminals = true -> closed (T ++ s).
Proof.
  intros Hs H. unfold closed.
  now rewrite endswith_terminals_app, H, andb_false_r.
Qed.

Lemma open_paragraph (D o : str) :
  clean o -> endswith_any o terminals = false ->
  nonempty (paragraph_open D o) && negb (endswith_any (paragraph_open D o) terminals) = true.
Proof.
  intros (Ho & _) H. unfold paragraph_open.
  rewrite endswith_terminals_app, H by assumption.
  rewrite nonempty_app_r; [reflexivity | now apply nonempty_true].
Qed.

Lemma paragraph_joined (D o s : str) :
  paragraph_open D o ++ [SP] ++ s = paragraph_open D (o ++ [SP] ++ s).
Proof. unfold paragraph_open. now rewrite <- !app_assoc. Qed.

(** *** Counting the lines set apart *)

Lemma set_apart_from_false (b : bool) (ls : list str) :
  set_apart_from false ls <= set_apart_from b ls.
Proof.
  destruct ls as [|s ls]; [apply le_n|]. cbn [set_apart_from].
  unfold set_apart_line. rewrite andb_false_r, orb_false_r.
  destruct (is_heading (_strip_tags s)); cbn [orb]; [apply le_n|].
  destruct (one_word s && b); lia.
Qed.

Lemma set_apart_cons (b : bool) (s : str) (ls : list str) :
  set_apart_from b (s :: ls) =
  (if set_apart_line b s then 1 else 0) +
  set_apart_from (is_heading (_strip_tags s)) ls.
Proof. reflexivity. Qed.

Lemma set_apart_heading (b : bool) (s : str) (ls : list str) :
  is_heading (_strip_tags s) = true ->
  set_apart_from b (s :: ls) = S (set_apart_from true ls).
Proof. intros H. cbn [set_apart_from]. unfold set_apart_line. now rewrite H. Qed.

Lemma set_apart_text (b : bool) (s : str) (ls : list str) :
  is_heading (_strip_tags s) = false ->
  set_apart_from b (s :: ls) =
  (if one_word s && b then 1 else 0) + set_apart_from false ls.
Proof. intros H. cbn [set_apart_from]. unfold set_apart_line. now rewrite H. Qed.

Lemma not_set_apart (b : bool) (s : str) :
  set_apart_line b s = false ->
  is_heading (_strip_tags s) = false /\ one_word s && b = false.
Proof. unfold set_apart_line. intros H. now apply orb_false_elim in H. Qed.

(** *** The second run follows the first *)

(** The first run from a state where the output is closed, and from a
    state where a paragraph line [o] is under way after [D]: in both,
    the lines [G] that the run adds to the output are set apart at least
    as often as the lines read; and when they are set apart no more
    often, a run on [G] gives what the run on the lines read gives. *)
Lemma merge_regroup (L : list str) :
  Forall clean L ->
  (forall T b, closed T ->
     exists G,
       nonblank_lines (splitlines (fst (merge_from (T, b) L))) =
         nonblank_lines (splitlines T) ++ G /\
       set_apart_from b L <= set_apart_from b G /\
       (set_apart_from b G <= set_apart_from b L ->
        merge_from (T, b) G = merge_from (T, b) L)) /\
  (forall D b o, closed D -> clean o -> endswith_any o terminals = false ->
     exists G,
       nonblank_lines (splitlines (fst (merge_from (paragraph_open D o, false) L))) =
         nonblank_lines (splitlines D) ++ G /\
       set_apart_from false L <= set_apart_from b G /\
       (set_apart_from b G <= set_apart_from false L ->
        merge_from (D, b) G = merge_from (paragraph_open D o, false) L)).
Proof.
  induction 1 as [|s L Hs _ [IHc IHo]].
  - split.
    + intros T b _. exists []. cbn. rewrite app_nil_r. auto.
    + intros D b o HD Ho Hopen. exists [o]. cbn [merge_from fold_left fst].
      split; [now apply lines_paragraph|]. split; [apply Nat.le_0_l|].
      intros Hle. cbn [set_apart_from] in Hle.
      destruct (set_apart_line b o) eqn:E; [lia|].
      apply not_set_apart in E as [E1 E2].
      rewrite step_paragraph, E2 by assumption. now rewrite app_nil_r.
  - split.
    + intros T b HT. rewrite merge_from_cons.
      destruct (is_heading (_strip_tags s)) eqn:Hh.
      * assert (C1 : closed ((T ++ line_gap T) ++ [NL] ++ s ++ [NL])).
        { replace ((T ++ line_gap T) ++ [NL] ++ s ++ [NL])
            with (((T ++ line_gap T) ++ [NL] ++ s) ++ [NL])
            by now rewrite <- !app_assoc.
          apply closed_newline. }
        destruct (IHc _ true C1) as (G & E & Hle & Hrun).
        rewrite step_heading by assumption.
        exists (s :: G). split.
        { etransitivity; [exact E|].
          rewrite lines_heading by assumption. now rewrite <- app_assoc. }
        rewrite !set_apart_heading by assumption. split; [lia|].
        intros H. rewrite merge_from_cons, step_heading by assumption.
        apply Hrun. lia.
      * rewrite step_paragraph by assumption.
        destruct (one_word s && b) eqn:Hw.
        -- destruct (IHc (((T ++ line_gap T) ++ s) ++ [NL]) false (closed_newline _))
             as (G & E & Hle & Hrun).
           exists (s :: G). split.
           { etransitivity; [exact E|].
             rewrite nonblank_final_newline, lines_paragraph by assumption.
             now rewrite <- app_assoc. }
           rewrite !set_apart_text, Hw by assumption. split; [lia|].
           intros H. rewrite merge_from_cons, step_paragraph, Hw by assumption.
           apply Hrun. lia.
        -- rewrite app_nil_r.
           destruct (endswith_any s terminals) eqn:Ht.
           ++ assert (C1 : closed ((T ++ line_gap T) ++ s))
                by (apply closed_terminated; [apply Hs | assumption]).
              destruct (IHc _ false C1) as (G & E & Hle & Hrun).
              exists (s :: G). split.
              { etransitivity; [exact E|].
                rewrite lines_paragraph by assumption. now rewrite <- app_assoc. }
              rewrite !set_apart_text, Hw by assumption. split; [lia|].
              intros H. rewrite merge_from_cons, step_paragraph, Hw by assumption.
              rewrite app_nil_r. apply Hrun. lia.
           ++ destruct (IHo T b s HT Hs Ht) as (G & E & Hle & Hrun).
              exists G. split; [exact E|].
              rewrite set_apart_text, Hw by assumption. split; [exact Hle|].
              exact Hrun.
    + intros D b o HD Ho Hopen. rewrite merge_from_cons.
      pose proof (open_paragraph D o Ho Hopen) as HT.
      destruct (is_heading (_strip_tags s)) eqn:Hh.
      * assert (C1 : closed ((paragraph_open D o ++ line_gap (paragraph_open D o))
                             ++ [NL] ++ s ++ [NL])).
        { replace ((paragraph_open D o ++ line_gap (paragraph_open D o))
                   ++ [NL] ++ s ++ [NL])
            with (((paragraph_open D o ++ line_gap (paragraph_open D o))
                   ++ [NL] ++ s) ++ [NL])
            by now rewrite <- !app_assoc.
          apply closed_newline. }
        destruct (IHc _ true C1) as (G & E & Hle & Hrun).
        rewrite step_heading by assumption.
        exists (o :: s :: G). split.
        { etransitivity; [exact E|].
          rewrite lines_heading by assumption. unfold paragraph_open.
          rewrite lines_paragraph by assumption. now rewrite <- !app_assoc. }
        rewrite (set_apart_cons b o), !set_apart_heading by assumption.
        split; [lia|]. intros H.
        destruct (set_apart_line b o) eqn:Eo; [lia|].
        apply not_set_apart in Eo as [E1 E2].
        rewrite merge_from_cons, step_paragraph, E2, app_nil_r by assumption.
        fold (paragraph_open D o).
        rewrite merge_from_cons, step_heading by assumption.
        apply Hrun. lia.
      * rewrite step_join, paragraph_joined by assumption.
        pose proof (clean_joined o s Ho Hs) as Hj.
        assert (Hend : endswith_any (o ++ [SP] ++ s) terminals = endswith_any s terminals).
        { rewrite app_assoc. apply endswith_terminals_app, Hs. }
        rewrite (set_apart_text false s) by assumption.
        rewrite andb_false_r. cbn [Nat.add].
        destruct (endswith_any s terminals) eqn:Ht.
        -- assert (C1 : closed (paragraph_open D (o ++ [SP] ++ s)))
             by (apply closed_terminated; [apply Hj | assumption]).
           destruct (IHc _ false C1) as (G & E & Hle & Hrun).
           exists ((o ++ [SP] ++ s) :: G). split.
           { etransitivity; [exact E|]. unfold paragraph_open.
             rewrite lines_paragraph by assumption. now rewrite <- app_assoc. }
           pose proof (set_apart_from_false (is_heading (_strip_tags (o ++ [SP] ++ s))) G)
             as Hm.
           rewrite (set_apart_cons b (o ++ [SP] ++ s)). split; [lia|]. intros H.
           destruct (set_apart_line b (o ++ [SP] ++ s)) eqn:Eo; [lia|].
           apply not_set_apart in Eo as [E1 E2]. rewrite E1 in *.
           rewrite merge_from_cons, step_paragraph, E2, app_nil_r by assumption.
           fold (paragraph_open D (o ++ [SP] ++ s)).
           apply Hrun. lia.
        -- destruct (IHo D b (o ++ [SP] ++ s) HD Hj Hend) as (G & E & Hle & Hrun).
           exists G. auto.
Qed.

(** The merger does not always return its own output unchanged, for a
    second reason: a line boundary inside an input line is a line end in
    the output. *)
Remark merge_line_boundary_inside :
  _merge_split_lines [py "a" ++ [NL] ++ py "b"] = py "a" ++ [NL] ++ py "b" /\
  _merge_split_lines (splitlines (py "a" ++ [NL] ++ py "b")) = py "a b".
Proof. split; vm_compute; reflexivity. Qed.

(** And for a third: lines joined below a heading can leave one word
    once the markup is removed, which the second run closes with a
    newline of its own. *)
Remark merge_new_subtitle :
  _merge_split_lines (map py ["Chapter 1"; "<b>"; "word</b>"]%string) =
    [NL] ++ py "Chapter 1" ++ [NL; NL] ++ py "<b> word</b>" /\
  _merge_split_lines
    (splitlines (_merge_split_lines (map py ["Chapter 1"; "<b>"; "word</b>"]%string))) =
    [NL] ++ py "Chapter 1" ++ [NL; NL] ++ py "<b> word</b>" ++ [NL] /\
  set_apart (map py ["Chapter 1"; "<b>"; "word</b>"]%string) = 1 /\
  set_apart
    (splitlines (_merge_split_lines (map py ["Chapter 1"; "<b>"; "word</b>"]%string))) = 2.
Proof. repeat split; vm_compute; reflexivity. Qed.

(** C5, amended: a text that the merger has produced from lines without
    line boundaries comes back unchanged from a second run whenever the
    second run sets apart (as a heading, or as one word directly below a
    heading) as many of its lines as the first run set apart of the
    lines it read, that is, whenever joining lines has made no new
    heading and no new one-word line below a heading. *)
Theorem merge_fixed_point (lines : list str) (text : str) :
  forallb no_linebreak lines = true ->
  text = _merge_split_lines lines ->
  set_apart (splitlines text) = set_apart lines ->
  _merge_split_lines (splitlines text) = text.
Proof.
  intros Hl -> Hc. unfold set_apart in Hc. unfold _merge_split_lines in *.
  destruct (merge_regroup (nonblank_lines lines) (clean_nonblank_lines lines Hl))
    as [Hclosed _].
  destruct (Hclosed [] false eq_refl) as (G & E & _ & Hrun).
  change ([] : str, false) with merge_init in *.
  rewrite merge_from_nonblank in *.
  cbn [splitlines app] in E. change (nonblank_lines []) with (@nil str) in E.
  cbn [app] in E.
  rewrite <- (merge_from_nonblank (splitlines (fst (merge_from merge_init lines)))).
  rewrite E in *. rewrite Hrun; [reflexivity | lia].
Qed.

Lemma merge_fixed_point_witness :
  forallb no_linebreak
    (map py ["Chapter 1"; "It was a dark"; "night."; "x"; "y"; "z"; "EPILOGUE";
             "The"; "end"]%string) = true /\
  _merge_split_lines
    (splitlines
       (_merge_split_lines
          (map py ["Chapter 1"; "It was a dark"; "night."; "x"; "y"; "z"; "EPILOGUE";
                   "The"; "end"]%string))) =
  _merge_split_lines
    (map py ["Chapter 1"; "It was a dark"; "night."; "x"; "y"; "z"; "EPILOGUE";
             "The"; "end"]%string).
Proof.
  split; [vm_compute; reflexivity|].
  apply (merge_fixed_point
           (map py ["Chapter 1"; "It was a dark"; "night."; "x"; "y"; "z"; "EPILOGUE";
                    "The"; "end"]%string));
    vm_compute; reflexivity.
Defined.

(** ** Chapter pattern *)

Lemma digit_cls_match (c : ascii) : cls_match true (OneOf [IDigit]) c = is_digit c.
Proof. simpl. apply orb_false_r. Qed.

Lemma space_cls_match (c : ascii) : cls_match true (OneOf [ISpace]) c = is_space c.
Proof. simpl. apply orb_false_r. Qed.

Lemma separator_cls_match (c : ascii) :
  cls_match true (OneOf (chars (py ":-") ++ [ISpace])) c = is_separator c.
Proof. each_char c; vm_compute; reflexivity. Qed.

Lemma separator_not_word (c : ascii) : is_separator c && is_word c = false.
Proof. each_char c; vm_compute; reflexivity. Qed.

Lemma letter_cls_match (c x : ascii) :
  cls_match true (OneOf [IChar x]) c = same_letter c x.
Proof. simpl. apply orb_false_r. Qed.

Lemma forallb_ext_eq (A : Type) (f g : A -> bool) (l : list A) :
  (forall x, f x = g x) -> forallb f l = forallb g l.
Proof. intros H. induction l as [|x l IH]; simpl; [reflexivity|]. now rewrite H, IH. Qed.

(** A literal word accepts the words equal to it up to case. *)
Lemma lang_lit (word : str) :
  forall prev w rest, lang true (lit word) prev w rest <-> ci_equal w word = true.
Proof.
  induction word as [|x word IH]; intros prev w rest.
  - cbn [lit fold_right lang]. unfold ci_equal. split.
    + now intros ->.
    + destruct w; [reflexivity | discriminate].
  - change (lit (x :: word)) with (Seq (Chr (OneOf [IChar x])) (lit word)).
    cbn [lang]. unfold ci_equal. split.
    + intros (w1 & w2 & -> & (c & -> & Hc) & H2).
      rewrite letter_cls_match in Hc. apply IH in H2.
      cbn [app lower map eqs]. unfold same_letter in Hc. unfold eqc.
      rewrite Hc. exact H2.
    + destruct w as [|c w]; [discriminate|].
      cbn [lower map eqs]. intros H. apply andb_prop in H as [Hc Hw].
      exists [c], w. split; [reflexivity|]. split.
      * exists c. split; [reflexivity|]. rewrite letter_cls_match. exact Hc.
      * apply IH. exact Hw.
Qed.

Lemma lang_alts_lit (words : list str) :
  forall prev w rest,
    lang true (alts (map lit words)) prev w rest <->
    exists word, In word words /\ ci_equal w word = true.
Proof.
  induction words as [|x words IH]; intros prev w rest.
  - cbn. split; [tauto | intros (? & [] & _)].
  - change (alts (map lit (x :: words)))
      with (Alt (lit x) (alts (map lit words))).
    cbn [lang]. rewrite lang_lit, IH. split.
    + intros [H|(word & Hin & H)]; [exists x | exists word]; simpl; auto.
    + intros (word & [<-|Hin] & H); [now left | right; eauto].
Qed.

Lemma lang_spaces (prev : option ascii) (w rest : str) :
  lang true spaces prev w rest <-> whitespace_run w.
Proof.
  unfold spaces, whitespace_run. cbn [lang].
  now rewrite (forallb_ext_eq _ _ is_space w space_cls_match).
Qed.

Lemma lang_separators (prev : option ascii) (w rest : str) :
  lang true separators prev w rest <-> separator_run w.
Proof.
  unfold separators, separator_run. cbn [lang].
  now rewrite (forallb_ext_eq _ _ is_separator w separator_cls_match).
Qed.

Lemma lang_roman (prev : option ascii) (w rest : str) :
  lang true roman_run prev w rest <-> roman_token w = true.
Proof.
  unfold roman_run, roman_token. cbn [lang].
  rewrite (forallb_ext_eq _ _ is_roman_char w roman_cls_match).
  rewrite andb_true_iff, nonempty_true. reflexivity.
Qed.

Lemma lang_digits (prev : option ascii) (w rest : str) :
  lang true digits13 prev w rest <->
  arabic w /\ boundary (after prev w) rest = true.
Proof.
  unfold digits13, arabic. cbn [lang]. split.
  - intros (w1 & w2 & -> & [Hlen Hall] & -> & Hb).
    rewrite app_nil_r in *.
    rewrite (forallb_ext_eq _ _ is_digit w1 digit_cls_match) in Hall. tauto.
  - intros [[Hlen Hall] Hb]. exists w, []. rewrite app_nil_r.
    rewrite (forallb_ext_eq _ _ is_digit w digit_cls_match). tauto.
Qed.

Lemma lang_title (prev : option ascii) (w rest : str) :
  lang true (Plus Dot) prev w rest <-> w <> [] /\ single_line w = true.
Proof. reflexivity. Qed.

Lemma lang_numeral (prev : option ascii) (w rest : str) :
  lang true numeral_alt prev w rest <->
  (arabic w /\ boundary (after prev w) rest = true) \/
  roman_token w = true \/ spelled_out w.
Proof.
  unfold numeral_alt. cbn [lang].
  rewrite lang_digits, lang_roman, lang_alts_lit. reflexivity.
Qed.

(** After a run of digits comes a word boundary as soon as what follows
    is the end or a separator. *)
Lemma after_last (P : ascii -> bool) (w : str) :
  forall prev, w <> [] -> forallb P w = true ->
               exists c, after prev w = Some c /\ P c = true.
Proof.
  induction w as [|c w IH]; intros prev Hw Hall; [congruence|].
  simpl in Hall. apply andb_prop in Hall as [Hc Hall].
  destruct w as [|d w]; [now exists c|].
  apply (IH (Some c)); [discriminate | assumption].
Qed.

Lemma arabic_nonempty (w : str) : arabic w -> w <> [].
Proof. intros [[H _] _] ->. simpl in H. lia. Qed.

Lemma boundary_after_digits (prev : option ascii) (w rest : str) :
  arabic w ->
  (rest = [] \/ exists c r, rest = c :: r /\ is_separator c = true) ->
  boundary (after prev w) rest = true.
Proof.
  intros Hw Hrest.
  destruct (after_last is_digit w prev (arabic_nonempty w Hw) (proj2 Hw))
    as (d & -> & Hd).
  unfold boundary. cbn [wordy]. unfold is_word. rewrite Hd. cbn [orb].
  destruct Hrest as [->|(c & r & -> & Hc)]; [reflexivity|].
  cbn [hd_error wordy]. pose proof (separator_not_word c) as X.
  rewrite Hc in X. cbn in X. now rewrite X.
Qed.

Lemma lang_chapter_head (word : str) (w rest : str) :
  ci_equal word (py "Chapter") = true ->
  lang true (chapter_head word) None w rest <-> chapter_start w rest.
Proof.
  intros Hword.
  assert (Hkw : forall kw, ci_equal kw word = ci_equal kw (py "Chapter")).
  { intros kw. unfold ci_equal in *. apply eqs_true in Hword. now rewrite Hword. }
  unfold chapter_head, chapter_start. cbn [lang]. split.
  - intros (kw & w2 & -> & Hk & ws & num & -> & Hs & Hn).
    apply lang_lit in Hk. apply lang_spaces in Hs. apply lang_numeral in Hn.
    rewrite Hkw in Hk. exists kw, ws, num. tauto.
  - intros (kw & ws & num & -> & Hk & Hs & Hn).
    exists kw, (ws ++ num). split; [reflexivity|]. split.
    + apply lang_lit. now rewrite Hkw.
    + exists ws, num. split; [reflexivity|]. split.
      * now apply lang_spaces.
      * now apply lang_numeral.
Qed.

Lemma single_line_app (a b : str) :
  single_line (a ++ b) = true -> single_line a = true /\ single_line b = true.
Proof. unfold single_line. rewrite forallb_app. apply andb_prop. Qed.

Lemma single_line_end (line w rest : str) :
  single_line line = true -> line = w ++ rest -> at_end rest = true -> rest = [].
Proof.
  intros Hl -> He. apply single_line_app in Hl as [_ Hr].
  destruct rest as [|c [|d rest]]; [reflexivity| |discriminate].
  simpl in He, Hr. rewrite He in Hr. discriminate.
Qed.

Lemma chapter_branches_unfold (line : str) :
  lang true chapter_branches None line [] <->
  lang true (chapter_head (py "Chapter")) None line [] \/
  lang true (chapter_head (py "CHAPTER")) None line [] \/
  (exists w1 w2,
     line = w1 ++ w2 /\
     lang true (chapter_head (py "CHAPTER")) None w1 (w2 ++ []) /\
     (w2 = [] \/
      exists sep title,
        w2 = sep ++ title /\
        lang true separators (after None w1) sep (title ++ []) /\
        lang true (Plus Dot) (after (after None w1) sep) title [])) \/
  lang true roman_run None line [] \/
  lang true digits13 None line [].
Proof. reflexivity. Qed.

Lemma chapter_branches_heading (line : str) :
  single_line line = true ->
  lang true chapter_branches None line [] <-> chapter_heading line.
Proof.
  intros Hline. rewrite chapter_branches_unfold.
  unfold chapter_heading, chapter_line, bare_numeral, numeral.
  split.
  - intros [H|[H|[H|[H|H]]]].
    + apply lang_chapter_head in H; [|reflexivity].
      destruct H as (kw & ws & num & -> & Hk & Hs & Hn). left.
      exists kw, ws, num, []. rewrite app_nil_r.
      split; [reflexivity|]. split; [assumption|]. split; [assumption|].
      split; [tauto | now left].
    + apply lang_chapter_head in H; [|reflexivity].
      destruct H as (kw & ws & num & -> & Hk & Hs & Hn). left.
      exists kw, ws, num, []. rewrite app_nil_r.
      split; [reflexivity|]. split; [assumption|]. split; [assumption|].
      split; [tauto | now left].
    + destruct H as (w1 & w2 & -> & H & Htail).
      apply lang_chapter_head in H; [|reflexivity].
      destruct H as (kw & ws & num & -> & Hk & Hs & Hn).
      left. exists kw, ws, num, w2. rewrite <- !app_assoc.
      split; [reflexivity|]. split; [assumption|]. split; [assumption|].
      split; [tauto|].
      destruct Htail as [->|(sep & title & -> & Hsep & Htitle)]; [now left|].
      right. exists sep, title. apply lang_separators in Hsep.
      destruct Htitle as [Hne _]. split; [reflexivity | tauto].
    + apply lang_roman in H. right. now right.
    + apply lang_digits in H. right. left. tauto.
  - intros [(kw & ws & num & rest & -> & Hk & Hs & Hn & Htail)|[H|H]].
    + right. right. left. exists (kw ++ ws ++ num), rest.
      split; [now rewrite <- !app_assoc|]. split.
      * apply lang_chapter_head; [reflexivity|].
        exists kw, ws, num. split; [reflexivity|].
        split; [assumption|]. split; [assumption|].
        destruct Hn as [Hn|Hn]; [left | now right].
        split; [assumption|]. rewrite app_nil_r.
        apply boundary_after_digits; [assumption|].
        destruct Htail as [->|(sep & title & -> & [Hne Hsep] & _)]; [now left|].
        right. destruct sep as [|c sep]; [congruence|].
        exists c, (sep ++ title). simpl in Hsep.
        apply andb_prop in Hsep as [Hc _]. now split.
      * destruct Htail as [->|(sep & title & -> & Hsep & Htitle)]; [now left|].
        right. exists sep, title. split; [reflexivity|]. split.
        -- now apply lang_separators.
        -- apply lang_title. split; [assumption|].
           apply single_line_app in Hline as [_ Hline].
           apply single_line_app in Hline as [_ Hline].
           apply single_line_app in Hline as [_ Hline].
           now apply single_line_app in Hline as [_ Hline].
    + right. right. right. right. apply lang_digits. split; [assumption|].
      apply boundary_after_digits; [assumption | now left].
    + right. right. right. left. now apply lang_roman.
Qed.

Lemma chapter_pattern_heading (line : str) :
  single_line line = true ->
  rmatch chapter_pattern line = true <-> chapter_heading line.
Proof.
  intros Hline. rewrite <- chapter_branches_heading by assumption.
  unfold chapter_pattern, _build_chapter_pattern.
  rewrite anchored_match. split.
  - intros (w & rest & E & L & He).
    pose proof (single_line_end line w rest Hline E He) as ->.
    rewrite app_nil_r in E. now subst w.
  - intros L. exists line, []. rewrite app_nil_r. now repeat split.
Qed.



(** ** Markup: [_strip_tags] and [_preserve_formatting] *)

Lemma pending_without_gt (r : str) :
  forall b, existsb (eqc ">"%char) r = false ->
            strip_tags_from (Some b) r = rev b ++ r.
Proof.
  induction r as [|c r IH]; intros b H; cbn [strip_tags_from].
  - now rewrite app_nil_r.
  - cbn [existsb] in H. apply orb_false_elim in H as [Hc Hr].
    rewrite Ascii.eqb_sym in Hc. unfold eqc in *. rewrite Hc.
    rewrite IH by assumption. cbn [rev]. now rewrite <- app_assoc.
Qed.

Lemma strip_tags_without_tag (s : str) :
  complete_tag s = false -> _strip_tags s = s.
Proof.
  unfold _strip_tags. induction s as [|c s IH]; intros H; [reflexivity|].
  cbn [complete_tag strip_tags_from] in *.
  destruct (eqc c "<"%char) eqn:Hc.
  - cbn [andb] in H. destruct (existsb (eqc ">"%char) s) eqn:Hs; [discriminate|].
    now rewrite pending_without_gt.
  - cbn [andb] in H. now rewrite IH.
Qed.

Lemma existsb_reversed (A : Type) (f : A -> bool) (l : list A) :
  existsb f (rev l) = existsb f l.
Proof.
  induction l as [|x l IH]; [reflexivity|].
  cbn [rev existsb]. rewrite existsb_app, IH. cbn [existsb].
  rewrite orb_false_r. apply orb_comm.
Qed.

Lemma no_gt_no_tag (s : str) :
  existsb (eqc ">"%char) s = false -> complete_tag s = false.
Proof.
  induction s as [|c s IH]; intros H; [reflexivity|].
  cbn [complete_tag existsb] in *. apply orb_false_elim in H as [_ Hs].
  rewrite Hs, andb_false_r. now apply IH.
Qed.

Lemma strip_tags_from_no_tag (s : str) :
  complete_tag (strip_tags_from None s) = false /\
  forall b, existsb (eqc ">"%char) b = false ->
            complete_tag (strip_tags_from (Some b) s) = false.
Proof.
  induction s as [|c s [IH1 IH2]]; cbn [strip_tags_from].
  - split; [reflexivity|]. intros b Hb. apply no_gt_no_tag.
    now rewrite existsb_reversed.
  - split.
    + destruct (eqc c "<"%char) eqn:Hc.
      * apply IH2. cbn. apply eqc_true in Hc. now subst c.
      * cbn [complete_tag]. now rewrite Hc.
    + intros b Hb. destruct (eqc c ">"%char) eqn:Hc; [exact IH1|].
      apply IH2. cbn [existsb]. rewrite Hb, orb_false_r.
      unfold eqc in *. now rewrite Ascii.eqb_sym.
Qed.

(** X1: after [_strip_tags] no [<] is followed by a [>] any more, and
    stripping a second time changes nothing. *)
Theorem strip_tags_idempotent (text : str) :
  complete_tag (_strip_tags text) = false /\
  _strip_tags (_strip_tags text) = _strip_tags text.
Proof.
  assert (H : complete_tag (_strip_tags text) = false)
    by apply strip_tags_from_no_tag.
  split; [exact H | now apply strip_tags_without_tag].
Qed.

(** X2: a text in which no [<] is followed by a [>] comes back from
    [_strip_tags] unchanged; a lone [<] or [>] is not markup. *)
Theorem strip_tags_keeps_plain_text (text : str) :
  complete_tag text = false -> _strip_tags text = text.
Proof. apply strip_tags_without_tag. Qed.

Lemma strip_tags_keeps_plain_text_witness :
  complete_tag (py "a > b and c < d") = false /\
  _strip_tags (py "a > b and c < d") = py "a > b and c < d".
Proof.
  split; [reflexivity|].
  apply strip_tags_keeps_plain_text. reflexivity.
Defined.

Lemma strip_tags_plain_prefix (a : str) :
  forall rest, no_lt a = true ->
    strip_tags_from None (a ++ rest) = a ++ strip_tags_from None rest.
Proof.
  induction a as [|c a IH]; intros rest H; [reflexivity|].
  cbn [no_lt forallb] in H. apply andb_prop in H as [Hc Ha].
  apply negb_true_iff in Hc. cbn [app strip_tags_from]. rewrite Hc.
  f_equal. now apply IH.
Qed.

Lemma strip_tags_format_span (s : span) (rest : str) :
  no_lt (span_text s) = true ->
  strip_tags_from None (format_span s ++ rest) =
  span_text s ++ strip_tags_from None rest.
Proof.
  intros H. unfold format_span.
  repeat match goal with |- context [if ?b then _ else _] => destruct b end;
    rewrite <- ?app_assoc;
    repeat (rewrite strip_tags_plain_prefix by assumption);
    try reflexivity;
    cbn [py list_ascii_of_string app strip_tags_from eqc Ascii.eqb Bool.eqb];
    rewrite strip_tags_plain_prefix by assumption; reflexivity.
Qed.

Lemma fold_left_append (A : Type) (f : A -> str) (l : list A) :
  forall acc, fold_left (fun text x => text ++ f x) l acc = acc ++ concat (map f l).
Proof.
  induction l as [|x l IH]; intros acc; cbn [fold_left map concat].
  - now rewrite app_nil_r.
  - now rewrite IH, app_assoc.
Qed.

Lemma format_line_concat (l : text_line) :
  format_line l = concat (map format_span l).
Proof. unfold format_line. now rewrite fold_left_append. Qed.

Lemma strip_tags_format_line (l : text_line) :
  forall rest, forallb (fun s => no_lt (span_text s)) l = true ->
    strip_tags_from None (format_line l ++ rest) =
    unformatted_line l ++ strip_tags_from None rest.
Proof.
  rewrite format_line_concat. unfold unformatted_line.
  induction l as [|s l IH]; intros rest H; [reflexivity|].
  cbn [forallb] in H. apply andb_prop in H as [Hs Hl].
  cbn [map concat]. rewrite <- !app_assoc.
  rewrite strip_tags_format_span by assumption. now rewrite IH.
Qed.

Lemma strip_tags_format_lines (lines : list text_line) :
  forall rest, forallb (fun s => no_lt (span_text s)) (concat lines) = true ->
    strip_tags_from None
      (concat (map (fun l => format_line l ++ [NL]) lines) ++ rest) =
    concat (map (fun l => unformatted_line l ++ [NL]) lines)
      ++ strip_tags_from None rest.
Proof.
  induction lines as [|l lines IH]; intros rest H; [reflexivity|].
  cbn [concat] in H. rewrite forallb_app in H. apply andb_prop in H as [Hl Hr].
  cbn [map concat]. rewrite <- !app_assoc.
  rewrite strip_tags_format_line by assumption.
  cbn [app strip_tags_from]. change (eqc NL "<"%char) with false. cbn iota.
  now rewrite IH.
Qed.

Lemma preserve_formatting_concat (blocks : list block) :
  forall acc,
    fold_left format_block blocks acc =
    acc ++ concat (map (fun b : block =>
             match b with
             | None => []
             | Some lines => concat (map (fun l => format_line l ++ [NL]) lines)
             end) blocks).
Proof.
  induction blocks as [|b blocks IH]; intros acc; cbn [fold_left map concat].
  - now rewrite app_nil_r.
  - rewrite IH. destruct b as [lines|]; cbn [format_block].
    + now rewrite fold_left_append, <- app_assoc.
    + reflexivity.
Qed.

(** X3: when no span text holds a [<], stripping the markup from what
    [_preserve_formatting] returns gives back the text of the page: the
    span texts of each line in order, each line closed by a newline.
    Blocks without lines add nothing. *)
Theorem strip_tags_preserve_formatting (blocks : list block) :
  forallb (fun s => no_lt (span_text s)) (spans_of blocks) = true ->
  _strip_tags (_preserve_formatting blocks) = unformatted_text blocks.
Proof.
  unfold _preserve_formatting, _strip_tags, unformatted_text.
  rewrite preserve_formatting_concat. cbn [app].
  induction blocks as [|b blocks IH]; intros H; [reflexivity|].
  cbn [spans_of flat_map] in H. rewrite forallb_app in H.
  apply andb_prop in H as [Hb Hr]. cbn [map concat].
  destruct b as [lines|]; cbn [unformatted_block app].
  - rewrite strip_tags_format_lines by assumption. f_equal. now apply IH.
  - now apply IH.
Qed.

Lemma strip_tags_preserve_formatting_witness :
  forallb (fun s => no_lt (span_text s))
    (spans_of [Some [[Span (py "Chapter ") 16 (py "Times");
                      Span (py "One") 2 (py "Times-Bold")]];
               None;
               Some [[Span (py "It was a dark night.") 0 (py "Times")]]]) = true /\
  _preserve_formatting
    [Some [[Span (py "Chapter ") 16 (py "Times");
            Span (py "One") 2 (py "Times-Bold")]];
     None;
     Some [[Span (py "It was a dark night.") 0 (py "Times")]]] =
    py "<b>Chapter </b><b><i>One</i></b>" ++ [NL] ++ py "It was a dark night." ++ [NL] /\
  _strip_tags
    (_preserve_formatting
       [Some [[Span (py "Chapter ") 16 (py "Times");
               Span (py "One") 2 (py "Times-Bold")]];
        None;
        Some [[Span (py "It was a dark night.") 0 (py "Times")]]]) =
    py "Chapter One" ++ [NL] ++ py "It was a dark night." ++ [NL].
Proof.
  split; [reflexivity|]. split; [vm_compute; reflexivity|].
  rewrite strip_tags_preserve_formatting by reflexivity.
  vm_compute. reflexivity.
Defined.

(** ** More on the line merger *)

Lemma solid_app (a b : str) : solid (a ++ b) = solid a ++ solid b.
Proof. apply filter_app. Qed.

Lemma solid_lstrip (s : str) : solid (lstrip s) = solid s.
Proof.
  induction s as [|c s IH]; [reflexivity|]. cbn [lstrip].
  destruct (is_space c) eqn:E; [|reflexivity].
  unfold solid in *. cbn [filter]. now rewrite E.
Qed.

Lemma solid_rev (s : str) : solid (rev s) = rev (solid s).
Proof.
  unfold solid. induction s as [|c s IH]; [reflexivity|].
  cbn [rev filter]. rewrite filter_app, IH. cbn [filter].
  destruct (negb (is_space c)); [reflexivity | apply app_nil_r].
Qed.

Lemma solid_strip (s : str) : solid (strip s) = solid s.
Proof.
  unfold strip, rstrip.
  now rewrite solid_rev, solid_lstrip, solid_rev, rev_involutive, solid_lstrip.
Qed.

Lemma solid_blank (s : str) : strip s = [] -> solid s = [].
Proof. intros H. now rewrite <- solid_strip, H. Qed.

Lemma solid_chunk (T : str) (b : bool) (line : str) :
  solid (chunk T b line) = solid line.
Proof.
  unfold chunk. destruct (strip line) as [|c s] eqn:E.
  - cbn [nonempty negb]. symmetry. now apply solid_blank.
  - cbn [nonempty negb]. rewrite <- E, <- (solid_strip line).
    repeat match goal with |- context [if ?x then _ else _] => destruct x end;
      rewrite ?solid_app; cbn [app]; rewrite ?app_nil_r; reflexivity.
Qed.

Lemma solid_merge_from (lines : list str) :
  forall st, solid (fst (merge_from st lines)) = solid (fst st) ++ solid (concat lines).
Proof.
  induction lines as [|line lines IH]; intros [T b].
  - cbn. now rewrite app_nil_r.
  - rewrite merge_from_cons, IH, merge_step_appends.
    cbn [concat fst]. now rewrite !solid_app, solid_chunk, app_assoc.
Qed.

Lemma merge_changes_spacing_only_aux (lines : list str) :
  solid (_merge_split_lines lines) = solid (concat lines).
Proof. unfold _merge_split_lines. now rewrite solid_merge_from. Qed.

(** X4: the merger changes white space only: with all white space taken
    out, its output and the input lines put end to end are the same
    text.  No character of a line is dropped, added or moved. *)
Theorem merge_changes_spacing_only (lines : list str) :
  solid (_merge_split_lines lines) = solid (concat lines).
Proof. apply merge_changes_spacing_only_aux. Qed.

Lemma merge_ignores_blank_lines_aux (lines lines' : list str) :
  nonblank_lines lines = nonblank_lines lines' ->
  _merge_split_lines lines = _merge_split_lines lines'.
Proof.
  intros H. unfold _merge_split_lines.
  now rewrite <- (merge_from_nonblank lines), <- (merge_from_nonblank lines'), H.
Qed.

Lemma nonblank_lines_fixed (lines : list str) :
  nonblank_lines (nonblank_lines lines) = nonblank_lines lines.
Proof.
  induction lines as [|l lines IH]; [reflexivity|].
  rewrite nonblank_lines_cons. destruct (nonempty (strip l)) eqn:E; [|exact IH].
  rewrite nonblank_lines_cons, strip_idem, E. now f_equal.
Qed.

(** X5: blank lines and white space around a line do not count: two
    inputs with the same trimmed non-blank lines give the same output. *)
Theorem merge_ignores_blank_lines (lines lines' : list str) :
  nonblank_lines lines = nonblank_lines lines' ->
  _merge_split_lines lines = _merge_split_lines lines'.
Proof. apply merge_ignores_blank_lines_aux. Qed.

Lemma merge_ignores_blank_lines_witness :
  nonblank_lines (map py ["  Chapter 1 "; ""; "It was late,"; "   "; " and dark."]%string) =
    nonblank_lines (map py ["Chapter 1"; "It was late,"; "and dark."]%string) /\
  _merge_split_lines (map py ["  Chapter 1 "; ""; "It was late,"; "   "; " and dark."]%string) =
    _merge_split_lines (map py ["Chapter 1"; "It was late,"; "and dark."]%string).
Proof.
  split; [reflexivity|].
  apply merge_ignores_blank_lines. reflexivity.
Defined.

(** X6: the merger only appends: the output for the first lines of an
    input is a prefix of the output for the whole input. *)
Theorem merge_extends_prefix (lines more : list str) :
  exists rest,
    _merge_split_lines (lines ++ more) = _merge_split_lines lines ++ rest.
Proof.
  unfold _merge_split_lines. rewrite merge_from_app.
  apply merge_from_extends.
Qed.

Lemma solid_nonblank_line (line : str) :
  nonempty (strip line) = true -> solid line <> [].
Proof.
  intros H. rewrite <- solid_strip. pose proof (strip_head line) as Hh.
  destruct (strip line) as [|c s]; [discriminate|].
  unfold solid. cbn [filter]. rewrite Hh. discriminate.
Qed.

Lemma solid_empty_blank (lines : list str) :
  solid (concat lines) = [] -> nonblank_lines lines = [].
Proof.
  induction lines as [|line lines IH]; intros E; [reflexivity|].
  rewrite nonblank_lines_cons. cbn [concat] in E. rewrite solid_app in E.
  apply app_eq_nil in E as [E1 E2].
  destruct (nonempty (strip line)) eqn:N.
  - now apply solid_nonblank_line in N.
  - now apply IH.
Qed.

(** X7: the output is empty exactly when every input line is blank;
    in particular for no lines at all. *)
Theorem merge_empty_iff_blank (lines : list str) :
  _merge_split_lines lines = [] <-> nonblank_lines lines = [].
Proof.
  split.
  - intros H. pose proof (merge_changes_spacing_only_aux lines) as E.
    rewrite H in E. apply solid_empty_blank. now rewrite <- E.
  - intros H. unfold _merge_split_lines.
    now rewrite <- merge_from_nonblank, H.
Qed.

(** ** More on the paragraph segmenter *)

Lemma join_cons (sep x : str) (rest : list str) :
  rest <> [] -> join sep (x :: rest) = x ++ sep ++ join sep rest.
Proof. destruct rest; [congruence | reflexivity]. Qed.

Lemma paragraphs_after_nonempty (ls : list str) :
  forall cur, paragraphs_after cur ls <> [].
Proof.
  induction ls as [|l ls IH]; intros cur; cbn [paragraphs_after]; [discriminate|].
  destruct (first_isupper l && endswith cur (py ".")); [discriminate | apply IH].
Qed.

Lemma paragraphs_after_join (ls : list str) :
  forall cur, join (py " ") (paragraphs_after cur ls) = join (py " ") (cur :: ls).
Proof.
  induction ls as [|l ls IH]; intros cur; cbn [paragraphs_after]; [reflexivity|].
  destruct (first_isupper l && endswith cur (py ".")).
  - rewrite join_cons by apply paragraphs_after_nonempty.
    rewrite IH. now rewrite (join_cons (py " ") cur) by discriminate.
  - rewrite IH. rewrite (join_cons (py " ") cur) by discriminate.
    destruct ls as [|m ls]; [reflexivity|].
    rewrite !join_cons by discriminate. now rewrite <- !app_assoc.
Qed.

Lemma first_isupper_app (l t : str) :
  first_isupper l = true -> first_isupper (l ++ t) = true.
Proof. destruct l; [discriminate | trivial]. Qed.

Lemma paragraphs_after_broken (ls : list str) :
  forall cur, exists p rest t,
    paragraphs_after cur ls = p :: rest /\ p = cur ++ t /\
    well_broken (p :: rest) = true.
Proof.
  induction ls as [|l ls IH]; intros cur; cbn [paragraphs_after].
  - exists cur, [], []. now rewrite app_nil_r.
  - destruct (first_isupper l && endswith cur (py ".")) eqn:E.
    + apply andb_prop in E as [Hu He].
      destruct (IH l) as (q & rest & t & -> & -> & Hw).
      exists cur, ((l ++ t) :: rest), []. rewrite app_nil_r.
      split; [reflexivity|]. split; [reflexivity|].
      cbn [well_broken] in *. rewrite He, (first_isupper_app l t Hu).
      exact Hw.
    + destruct (IH (cur ++ py " " ++ l)) as (p & rest & t & -> & -> & Hw).
      exists ((cur ++ py " " ++ l) ++ t), rest, (py " " ++ l ++ t).
      split; [reflexivity|]. split; [now rewrite <- !app_assoc | exact Hw].
Qed.

(** X8: the segmenter loses nothing: its paragraphs joined by single
    spaces are the trimmed non-blank lines joined by single spaces; and
    there is no paragraph exactly when every line is blank. *)
Theorem paragraphs_keep_the_text (lines : list str) :
  join (py " ") (_detect_paragraphs lines) = join (py " ") (nonblank_lines lines) /\
  (_detect_paragraphs lines = [] <-> nonblank_lines lines = []).
Proof.
  rewrite detect_paragraphs_refines.
  destruct (nonblank_lines lines) as [|l ls]; cbn [spec_paragraphs].
  - split; [reflexivity | tauto].
  - split; [apply paragraphs_after_join|].
    split; [intros H; now apply paragraphs_after_nonempty in H | discriminate].
Qed.

(** X9: a paragraph break is made only after a period and before an
    upper-case letter: every paragraph but the last ends with a period,
    and every paragraph but the first begins with an upper-case letter. *)
Theorem paragraph_breaks_after_period (lines : list str) :
  well_broken (_detect_paragraphs lines) = true.
Proof.
  rewrite detect_paragraphs_refines.
  destruct (nonblank_lines lines) as [|l ls]; [reflexivity|].
  cbn [spec_paragraphs].
  destruct (paragraphs_after_broken ls l) as (p & rest & t & -> & _ & Hw).
  exact Hw.
Qed.

(** ** Numbers: decimal digits and Roman values *)

Lemma int_digits_acc (d : Decimal.uint) :
  forall acc : positive,
    fold_left digit_step (list_ascii_of_string (NilEmpty.string_of_uint d)) (Zpos acc) =
    Zpos (Pos.of_uint_acc d acc).
Proof.
  induction d; intros acc;
    cbn [NilEmpty.string_of_uint list_ascii_of_string fold_left Pos.of_uint_acc];
    [reflexivity| ..]; rewrite <- IHd; f_equal;
    unfold digit_step;
    match goal with |- context [Z.of_N ?n] =>
      let v := eval vm_compute in (Z.of_N n) in change (Z.of_N n) with v end;
    lia.
Qed.

Lemma int_digits (d : Decimal.uint) :
  fold_left digit_step (list_ascii_of_string (NilEmpty.string_of_uint d)) 0%Z =
  Z.of_N (Pos.of_uint d).
Proof.
  induction d;
    cbn [NilEmpty.string_of_uint list_ascii_of_string fold_left Pos.of_uint];
    [reflexivity | exact IHd | ..];
    match goal with
    | |- fold_left _ _ ?x = _ => let v := eval vm_compute in x in change x with v
    end; rewrite int_digits_acc; reflexivity.
Qed.

Lemma digits_are_digits (d : Decimal.uint) :
  forallb is_digit (list_ascii_of_string (NilEmpty.string_of_uint d)) = true.
Proof.
  induction d; cbn [NilEmpty.string_of_uint list_ascii_of_string forallb];
    [reflexivity| ..]; rewrite IHd; reflexivity.
Qed.

Lemma int_str_of_int (v : Z) : (0 <= v)%Z ->
  isnumeric (str_of_int v) = true /\ int (str_of_int v) = v.
Proof.
  intros Hv. unfold str_of_int, int. change (fun acc c => _) with digit_step.
  destruct v as [|p|p]; [split; reflexivity | | lia].
  cbn [Z.to_int NilZero.string_of_int]. unfold NilZero.string_of_uint.
  pose proof (DecimalPos.Unsigned.of_to p) as E.
  destruct (Pos.to_uint p) eqn:D; try discriminate E;
    rewrite <- D in *; (split; [|now rewrite int_digits, E]);
    unfold isnumeric; rewrite digits_are_digits, andb_true_r;
    rewrite D; reflexivity.
Qed.

Lemma roman_symbol_value (c : ascii) :
  is_roman_char c = true ->
  symbol_value c = 1%Z \/ symbol_value c = 5%Z \/ symbol_value c = 10%Z \/
  symbol_value c = 50%Z \/ symbol_value c = 100%Z \/ symbol_value c = 500%Z \/
  symbol_value c = 1000%Z.
Proof.
  each_char c; intros H; vm_compute in H; try discriminate H;
    vm_compute; repeat first [left; reflexivity | right]; reflexivity.
Qed.

Lemma roman_value_bounds (t : str) :
  forallb is_roman_char t = true ->
  (match t with c :: _ => symbol_value c | [] => 0 end <= roman_value t
   <= 1000 * Z.of_nat (length t))%Z.
Proof.
  induction t as [|c t IH]; intros H; [cbn; lia|].
  cbn [forallb] in H. apply andb_prop in H as [Hc Ht].
  specialize (IH Ht). cbn [roman_value length].
  pose proof (roman_symbol_value c Hc) as Vc.
  destruct t as [|d t].
  - cbn [roman_value length]. lia.
  - cbn [forallb] in Ht. apply andb_prop in Ht as [Hd _].
    pose proof (roman_symbol_value d Hd) as Vd.
    set (vc := symbol_value c) in *. set (vd := symbol_value d) in *.
    set (rest := roman_value (d :: t)) in *.
    set (n := Z.of_nat (length (d :: t))) in *.
    replace (Z.of_nat (S (length (d :: t)))) with (n + 1)%Z
      by (subst n; lia).
    destruct (Z.ltb_spec vc vd); lia.
Qed.

Lemma roman_value_positive (t : str) :
  roman_token t = true -> (0 < roman_value t)%Z.
Proof.
  unfold roman_token. intros H. apply andb_prop in H as [Hn Hall].
  pose proof (roman_value_bounds t Hall) as B.
  destruct t as [|c t]; [discriminate|].
  cbn [forallb] in Hall. apply andb_prop in Hall as [Hc _].
  pose proof (roman_symbol_value c Hc) as Vc. lia.
Qed.

(** X10: on a non-empty run of Roman letters, in either case,
    [_roman_to_int] is positive: the value is at least that of the first
    symbol and at most a thousand for each symbol.  So the decoded value
    of a heading is never zero or negative, and its decimal form is
    numeric. *)
Theorem roman_to_int_positive (roman : str) :
  roman_token roman = true ->
  (0 < _roman_to_int (upper roman) <= 1000 * Z.of_nat (length roman))%Z /\
  (symbol_value (hd "I"%char roman) <= _roman_to_int (upper roman))%Z /\
  isnumeric (str_of_int (_roman_to_int (upper roman))) = true /\
  int (str_of_int (_roman_to_int (upper roman))) = _roman_to_int (upper roman).
Proof.
  unfold roman_token. intros H. apply andb_prop in H as [Hn Hall].
  rewrite roman_to_int_value. pose proof (roman_value_bounds roman Hall) as B.
  destruct roman as [|c t]; [discriminate|]. cbn [hd].
  cbn [forallb] in Hall. apply andb_prop in Hall as [Hc _].
  pose proof (roman_symbol_value c Hc) as Vc.
  assert (P : (0 < roman_value (c :: t))%Z) by lia.
  split; [lia|]. split; [lia|]. apply int_str_of_int. lia.
Qed.

Lemma roman_to_int_positive_witness :
  roman_token (py "xiv") = true /\
  (0 < _roman_to_int (upper (py "xiv")))%Z.
Proof.
  split; [reflexivity|].
  apply (roman_to_int_positive (py "xiv") eq_refl).
Defined.

(** ** The front-matter pattern and bare numerals *)


Lemma numeral_char_plain (c : ascii) :
  is_digit c || is_roman_char c = true ->
  is_space c = false /\ eqc c NL = false.
Proof.
  each_char c; intros H; vm_compute in H; try discriminate H;
    split; reflexivity.
Qed.

Lemma digit_not_roman (c : ascii) : is_digit c = true -> is_roman_char c = false.
Proof. each_char c; intros H; vm_compute in H; try discriminate H; reflexivity. Qed.

Lemma bare_numeral_chars (s : str) :
  bare_numeral s -> s <> [] /\ forallb (fun c => is_digit c || is_roman_char c) s = true.
Proof.
  intros [[Hlen Hall]|H].
  - split; [intros ->; simpl in Hlen; lia|].
    rewrite forallb_forall in *. intros c Hc. now rewrite (Hall c Hc).
  - unfold roman_token in H. apply andb_prop in H as [Hn Hall].
    split; [now apply nonempty_true|].
    rewrite forallb_forall in *. intros c Hc.
    now rewrite (Hall c Hc), orb_true_r.
Qed.

Lemma strip_unspaced (s : str) :
  forallb (fun c => negb (is_space c)) s = true -> strip s = s.
Proof.
  intros H. unfold strip, rstrip.
  assert (L : forall u, forallb (fun c => negb (is_space c)) u = true -> lstrip u = u).
  { intros [|c u] Hu; [reflexivity|]. cbn in Hu.
    apply andb_prop in Hu as [Hc _]. apply negb_true_iff in Hc.
    cbn [lstrip]. now rewrite Hc. }
  rewrite (L s H), L; [apply rev_involutive|].
  rewrite forallb_forall in *. intros c Hc. apply H. now apply in_rev.
Qed.

Lemma bare_numeral_facts (s : str) :
  bare_numeral s ->
  nonempty s = true /\ strip s = s /\ rmatch chapter_pattern s = true.
Proof.
  intros H. destruct (bare_numeral_chars s H) as [Hn Hall].
  split; [now apply nonempty_true|].
  assert (Hp : forall c, In c s -> is_space c = false /\ eqc c NL = false).
  { intros c Hc. apply numeral_char_plain.
    rewrite forallb_forall in Hall. now apply Hall. }
  split.
  - apply strip_unspaced. apply forallb_forall. intros c Hc.
    now rewrite (proj1 (Hp c Hc)).
  - apply chapter_pattern_heading; [|now right].
    apply forallb_forall. intros c Hc. now rewrite (proj2 (Hp c Hc)).
Qed.

(** The sequence test of the scanning loop on a bare numeral. *)
Lemma bare_numeral_test (s : str) (n : Z) :
  bare_numeral s ->
  isnumeric (str_of (_convert_line_if_roman s))
  && negb (int (str_of (_convert_line_if_roman s)) =? n)%Z =
  negb (bare_value s =? n)%Z.
Proof.
  intros H. destruct (bare_numeral_facts s H) as (_ & Hs & _).
  unfold _convert_line_if_roman, bare_value.
  rewrite roman_pattern_upper_strip, roman_to_int_value, Hs.
  destruct (roman_token s) eqn:R; cbn [str_of].
  - pose proof (roman_value_positive s R) as P.
    destruct (int_str_of_int (roman_value s)) as [-> ->]; [lia | reflexivity].
  - destruct H as [[Hlen Hall]|H]; [|congruence].
    unfold isnumeric. rewrite Hall, andb_true_r.
    destruct s; [simpl in Hlen; lia | reflexivity].
Qed.

(** X12: sequence validation of bare numerals.  When a line is one to
    three digits or a run of Roman letters, the scanning loop registers
    it as a chapter start only if its value equals the expected
    [chapter_number] and the non-blank line before it was no heading;
    then the counter goes up by one.  In every other case the line is
    not registered, at most the last start is retracted, the counter
    does not go up, and the heading run is closed. *)
Theorem bare_numeral_sequence (lines : list str) (i : nat) (line : str)
    (st : scan_state) :
  bare_numeral (_strip_tags (strip line)) ->
  (bare_value (_strip_tags (strip line)) = chapter_number st ->
   prev_is_chapter st = false ->
   start_indices (scan_step lines i line st) = start_indices st ++ [i] /\
   chapter_number (scan_step lines i line st) = (chapter_number st + 1)%Z /\
   prev_is_chapter (scan_step lines i line st) = true) /\
  (bare_value (_strip_tags (strip line)) <> chapter_number st \/
   prev_is_chapter st = true ->
   (start_indices (scan_step lines i line st) = start_indices st \/
    start_indices (scan_step lines i line st) = removelast (start_indices st)) /\
   (chapter_number (scan_step lines i line st) <= chapter_number st)%Z /\
   prev_is_chapter (scan_step lines i line st) = false).
Proof.
  intros H. destruct (bare_numeral_facts _ H) as (Hn & _ & Hm).
  unfold scan_step. rewrite Hn, Hm, bare_numeral_test by assumption.
  cbn [negb]. split.
  - intros Hv Hp. apply Z.eqb_eq in Hv. rewrite Hv, Hp. cbn. auto.
  - intros Hc.
    assert (E : negb (bare_value (_strip_tags (strip line)) =? chapter_number st)%Z
                || prev_is_chapter st = true).
    { destruct Hc as [Hv|Hp]; [|now rewrite Hp, orb_true_r].
      apply Z.eqb_neq in Hv. now rewrite Hv. }
    rewrite E.
    destruct (_ && nonempty_list (start_indices st));
      cbn [start_indices chapter_number prev_is_chapter]; repeat split; auto; lia.
Qed.

Lemma bare_numeral_sequence_witness :
  bare_numeral (_strip_tags (strip (py " <i>47</i>"))) /\
  Z.le (chapter_number
          (scan_step [py "Chapter 1"; py "Some text."; py " <i>47</i>"] 2
             (py " <i>47</i>") (ScanState [0] [py "Chapter 1"] false 2 0))) 2 /\
  prev_is_chapter
    (scan_step [py "Chapter 1"; py "Some text."; py " <i>47</i>"] 2 (py " <i>47</i>")
       (ScanState [0] [py "Chapter 1"] false 2 0)) = false.
Proof.
  assert (B : bare_numeral (_strip_tags (strip (py " <i>47</i>")))).
  { left. split; [vm_compute; lia | reflexivity]. }
  split; [exact B|].
  destruct (bare_numeral_sequence
              [py "Chapter 1"; py "Some text."; py " <i>47</i>"] 2 (py " <i>47</i>")
              (ScanState [0] [py "Chapter 1"] false 2 0) B) as [_ R].
  apply R. left. intros E. vm_compute in E. discriminate E.
Defined.

(** ** More on the chapter boundary detector *)

Lemma detect_chapters_result (pdf_text : str) :
  _detect_chapters pdf_text =
  Some (combine (map (fun sp => strip (join [NL] sp))
                     (spans_between (splitlines pdf_text)
                                    (boundaries (splitlines pdf_text))))
                (original_chapter_names (scan (splitlines pdf_text))),
        firstn (hd 0 (boundaries (splitlines pdf_text))) (splitlines pdf_text)).
Proof.
  set (lines := splitlines pdf_text).
  pose proof (scan_invariant lines) as [_ Hlen].
  assert (Hbl : length (boundaries lines) = S (length (start_indices (scan lines))))
    by (unfold boundaries; rewrite length_app; simpl; lia).
  unfold _detect_chapters. fold lines.
  rewrite chapters_by_index by lia.
  destruct (boundaries lines) as [|b0 bs] eqn:Eb; [simpl in Hbl; lia|].
  reflexivity.
Qed.

Lemma Forall_removelast (A : Type) (P : A -> Prop) (l : list A) :
  Forall P l -> Forall P (removelast l).
Proof.
  induction l as [|x l' _] using rev_ind; [trivial|].
  rewrite removelast_last. intros H. now apply Forall_app in H as [H _].
Qed.

Lemma scan_step_headings (lines : list str) (i : nat) (line : str)
    (st : scan_state) :
  nth i lines [] = line ->
  Forall (fun j => heading_at lines j = true) (start_indices st) ->
  Forall (fun j => heading_at lines j = true) (start_indices (scan_step lines i line st)).
Proof.
  intros Hi H.
  assert (Pop := Forall_removelast _ _ _ H).
  unfold scan_step.
  destruct (negb (nonempty (_strip_tags (strip line)))); [assumption|].
  destruct (rmatch chapter_pattern (_strip_tags (strip line))) eqn:Hc.
  - assert (Hh : heading_at lines i = true)
      by (unfold heading_at, is_heading; now rewrite Hi, Hc).
    repeat match goal with
           | |- context [if ?b then _ else _] => destruct b
           end; cbn [start_indices]; try assumption;
      apply Forall_app; split; try assumption; now constructor.
  - destruct (rmatch prologue_epilogue_pattern (_strip_tags (strip line))) eqn:Hp;
      [|assumption].
    assert (Hh : heading_at lines i = true)
      by (unfold heading_at, is_heading; now rewrite Hi, Hc, Hp).
    destruct (negb _); cbn [start_indices]; [|assumption].
    apply Forall_app; split; [assumption | now constructor].
Qed.

Lemma scan_from_headings (pre rest : list str) :
  forall st,
    Forall (fun j => heading_at (pre ++ rest) j = true) (start_indices st) ->
    Forall (fun j => heading_at (pre ++ rest) j = true)
           (start_indices (scan_from (pre ++ rest) (length pre) rest st)).
Proof.
  revert pre. induction rest as [|line rest IH]; intros pre st H; [exact H|].
  cbn [scan_from].
  replace (pre ++ line :: rest) with ((pre ++ [line]) ++ rest) in *
    by now rewrite <- app_assoc.
  replace (S (length pre)) with (length (pre ++ [line]))
    by (rewrite length_app; simpl; lia).
  apply IH. apply scan_step_headings; [|assumption].
  rewrite <- app_assoc. cbn [app]. now rewrite nth_middle.
Qed.

Lemma scan_headings (lines : list str) :
  Forall (fun j => heading_at lines j = true) (start_indices (scan lines)).
Proof. apply (scan_from_headings [] lines scan_init). constructor. Qed.

Lemma increasing_bound (n : nat) (l : list nat) :
  forall a, increasing_upto n (l ++ [a]) -> Forall (fun j => j < a) l.
Proof.
  induction l as [|x l IH]; intros a H; [constructor|].
  cbn [app increasing_upto] in H. destruct H as (_ & Hnext & Hrest).
  specialize (IH a Hrest). constructor; [|assumption].
  destruct l as [|y l]; cbn [app] in Hnext; [assumption|].
  inversion IH; subst. lia.
Qed.

(** X13: chapters begin at headings only.  [_detect_chapters] returns
    one chapter for each start it has registered, and every registered
    start is the index of a line of the text that, trimmed and without
    markup, matches the chapter pattern or the front-matter pattern; a
    blank line or a line of prose never opens a chapter. *)
Theorem chapters_start_at_headings (pdf_text : str) :
  exists chapters front,
    _detect_chapters pdf_text = Some (chapters, front) /\
    length chapters = length (start_indices (scan (splitlines pdf_text))) /\
    map snd chapters = original_chapter_names (scan (splitlines pdf_text)) /\
    Forall (fun j => j < length (splitlines pdf_text) /\
                     heading_at (splitlines pdf_text) j = true)
           (start_indices (scan (splitlines pdf_text))).
Proof.
  rewrite detect_chapters_result. set (lines := splitlines pdf_text).
  pose proof (scan_invariant lines) as [Hinc Hlen].
  assert (Hs : length (map (fun sp => strip (join [NL] sp))
                           (spans_between lines (boundaries lines))) =
               length (original_chapter_names (scan lines))).
  { rewrite length_map, spans_between_length. unfold boundaries.
    rewrite length_app. simpl. lia. }
  eexists. eexists. split; [reflexivity|]. split; [|split].
  - rewrite length_combine, Hs, Hlen. lia.
  - clear -Hs. revert Hs.
    generalize (map (fun sp => strip (join [NL] sp)) (spans_between lines (boundaries lines))).
    generalize (original_chapter_names (scan lines)).
    induction l as [|x l IH]; intros [|y m] H; simpl in *; try congruence.
    f_equal. apply IH. lia.
  - apply Forall_forall. intros j Hj. split.
    + pose proof (increasing_bound _ _ _ Hinc) as B.
      rewrite Forall_forall in B. now apply B.
    + pose proof (scan_headings lines) as Hh.
      rewrite Forall_forall in Hh. now apply Hh.
Qed.

Lemma lstrip_app_blank (a b : str) : lstrip a = [] -> lstrip (a ++ b) = lstrip b.
Proof.
  induction a as [|c a IH]; [reflexivity|]. cbn [lstrip app].
  destruct (is_space c); [exact IH | discriminate].
Qed.

Lemma strip_app_prefix (h x : str) :
  strip h <> [] -> exists tail, strip (h ++ x) = strip h ++ tail.
Proof.
  intros Hh. unfold strip in *.
  assert (Hl : lstrip h <> []) by (intros E; now rewrite E in Hh).
  rewrite lstrip_app_keeps by assumption.
  set (u := lstrip h) in *. unfold rstrip at 1. rewrite rev_app_distr.
  destruct (lstrip (rev x)) as [|c r] eqn:E.
  - rewrite lstrip_app_blank by assumption. exists []. now rewrite app_nil_r.
  - rewrite lstrip_app_keeps by congruence. rewrite E, rev_app_distr, rev_involutive.
    destruct (rstrip_prefix u) as [w Hw].
    exists (w ++ rev (c :: r)). now rewrite app_assoc, <- Hw.
Qed.

Lemma slice_head (A : Type) (l : list A) (d : A) (a b : nat) :
  a < b -> a < length l -> exists rest, slice l a b = nth a l d :: rest.
Proof.
  intros Hab Ha. unfold slice.
  destruct (skipn a l) as [|x r] eqn:E.
  - apply (f_equal (@length A)) in E. rewrite length_skipn in E. simpl in E. lia.
  - destruct (b - a) as [|k] eqn:K; [lia|]. cbn [firstn]. exists (firstn k r).
    f_equal. rewrite <- (firstn_skipn a l) at 1.
    rewrite app_nth2; rewrite length_firstn; [|lia].
    replace (a - Nat.min a (length l)) with 0 by lia. now rewrite E.
Qed.

Lemma join_head (sep h : str) (rest : list str) :
  exists x, join sep (h :: rest) = h ++ x.
Proof.
  destruct rest as [|r rest]; [exists []; now rewrite app_nil_r|].
  now exists (sep ++ join sep (r :: rest)).
Qed.

Lemma spans_begin_at_starts (lines : list str) (starts : list nat) :
  increasing_upto (length lines) (starts ++ [length lines]) ->
  Forall (fun j => heading_at lines j = true) starts ->
  Forall2 (begins_with_line lines) starts
    (map (fun sp => strip (join [NL] sp))
         (spans_between lines (starts ++ [length lines]))).
Proof.
  induction starts as [|a starts IH]; intros Hinc Hh; [constructor|].
  inversion Hh as [|? ? Ha Hrest]; subst.
  cbn [app]. cbn [app increasing_upto] in Hinc.
  destruct Hinc as (_ & Hnext & Hinc).
  specialize (IH Hinc Hrest).
  destruct (starts ++ [length lines]) as [|b bs] eqn:E.
  { destruct starts; discriminate. }
  change (spans_between lines (a :: b :: bs))
    with (slice lines a b :: spans_between lines (b :: bs)).
  cbn [map]. constructor; [|exact IH].
  assert (Hb : b <= length lines) by (cbn in Hinc; tauto).
  destruct (slice_head _ lines [] a b Hnext ltac:(lia)) as [rest ->].
  destruct (join_head [NL] (nth a lines []) rest) as [x ->].
  apply strip_app_prefix. apply nonempty_true. now apply heading_nonblank.
Qed.

(** X14: the text of every chapter that [_detect_chapters] returns
    begins with the trimmed heading line at which the chapter starts,
    markup included; the heading is part of the chapter text, not removed
    from it. *)
Theorem chapter_text_begins_with_heading (pdf_text : str) :
  exists chapters front,
    _detect_chapters pdf_text = Some (chapters, front) /\
    Forall2 (begins_with_line (splitlines pdf_text))
            (start_indices (scan (splitlines pdf_text)))
            (map fst chapters).
Proof.
  rewrite detect_chapters_result. set (lines := splitlines pdf_text).
  pose proof (scan_invariant lines) as [Hinc Hlen].
  eexists. eexists. split; [reflexivity|].
  rewrite map_fst_combine_same.
  - apply spans_begin_at_starts; [exact Hinc | apply scan_headings].
  - rewrite length_map, spans_between_length. unfold boundaries.
    rewrite length_app. simpl. lia.
Qed.

(** ** The book: introduction, chapter items, navigation *)

Lemma clean_paragraphs_nonblank (l : list str) :
  map strip (filter (fun para => nonempty (strip para)) l) = nonblank_lines l.
Proof.
  induction l as [|x l IH]; [reflexivity|].
  rewrite nonblank_lines_cons. cbn [filter].
  destruct (nonempty (strip x)); cbn [map]; now rewrite IH.
Qed.

Lemma nonblank_lines_of_joined (lines : list str) :
  forallb no_linebreak lines = true ->
  nonblank_lines (splitlines (join [NL] lines)) = nonblank_lines lines.
Proof.
  induction lines as [|x lines IH]; intros H; [reflexivity|].
  cbn [forallb] in H. apply andb_prop in H as [Hx Hl].
  destruct lines as [|y lines].
  - cbn [join]. destruct x as [|c x]; [reflexivity|].
    now rewrite splitlines_unbroken by (assumption || discriminate).
  - change (join [NL] (x :: y :: lines)) with (x ++ NL :: join [NL] (y :: lines)).
    rewrite splitlines_newline, splitlines_one_line by assumption.
    rewrite nonblank_lines_app, IH by assumption.
    now rewrite <- nonblank_lines_app.
Qed.

(** X15: [_add_intro_to_epub] makes no item for an empty list of lines.
    For a non-empty list of lines without line boundaries it makes the
    item titled "Introduction", in the file intro.xhtml, whose content is
    the heading followed by one paragraph element for each non-blank
    line, trimmed; when all the lines are blank the introduction is the
    heading alone. *)
Theorem add_intro_spec (intro_text_lines : list str) :
  forallb no_linebreak intro_text_lines = true ->
  _add_intro_to_epub intro_text_lines =
  if nonempty_list intro_text_lines
  then Some (EpubHtml (py "Introduction") (py "intro.xhtml")
               (heading_element (py "Introduction") ++
                concat (map paragraph_element (nonblank_lines intro_text_lines))))
  else None.
Proof.
  intros H. unfold _add_intro_to_epub.
  destruct intro_text_lines as [|x l]; [reflexivity|]. cbn [nonempty_list negb].
  rewrite clean_paragraphs_nonblank, nonblank_lines_of_joined by assumption.
  f_equal. f_equal.
  apply (fold_left_append str paragraph_element).
Qed.

Lemma add_intro_spec_witness :
  forallb no_linebreak [[]; py "  "] = true /\
  _add_intro_to_epub [[]; py "  "] =
  Some (EpubHtml (py "Introduction") (py "intro.xhtml") (py "<h1>Introduction</h1>")).
Proof.
  split; [reflexivity|].
  rewrite (add_intro_spec [[]; py "  "] eq_refl). reflexivity.
Defined.

Lemma render_from_files (chapters : list (str * str)) :
  forall i,
    map file_name (render_from i chapters) = map chapter_file (seq i (length chapters)) /\
    map title (render_from i chapters) = map snd chapters.
Proof.
  induction chapters as [|[text name] chapters IH]; intros i; [split; reflexivity|].
  destruct (IH (S i)) as [E1 E2].
  cbn [render_from map length seq]. rewrite E1, E2. split; reflexivity.
Qed.

Lemma chapter_file_injective (a b : nat) : chapter_file a = chapter_file b -> a = b.
Proof.
  unfold chapter_file. intros H.
  apply app_inv_head, app_inv_tail in H.
  apply (f_equal int) in H.
  rewrite (proj2 (int_str_of_int (Z.of_nat a) ltac:(lia))) in H.
  rewrite (proj2 (int_str_of_int (Z.of_nat b) ltac:(lia))) in H.
  lia.
Qed.

Lemma chapter_files_distinct (n : nat) :
  forall i, NoDup (map chapter_file (seq i n)).
Proof.
  induction n as [|n IH]; intros i; cbn [seq map]; constructor; [|apply IH].
  intros Hin. apply in_map_iff in Hin as (k & E & Hk).
  apply chapter_file_injective in E. apply in_seq in Hk. lia.
Qed.

(** X16: [_add_chapters_to_epub] makes one item for each chapter, in the
    order of the chapters and titled by the chapter names; the file
    names chapter_1.xhtml, chapter_2.xhtml, ... are pairwise distinct and
    none of them is the file of the introduction. *)
Theorem chapter_items_spec (chapters : list (str * str)) :
  length (_add_chapters_to_epub chapters) = length chapters /\
  map title (_add_chapters_to_epub chapters) = map snd chapters /\
  map file_name (_add_chapters_to_epub chapters) =
    map chapter_file (seq 1 (length chapters)) /\
  NoDup (map file_name (_add_chapters_to_epub chapters)) /\
  ~ In (py "intro.xhtml") (map file_name (_add_chapters_to_epub chapters)).
Proof.
  unfold _add_chapters_to_epub.
  destruct (render_from_files chapters 1) as [E1 E2].
  split; [|split; [exact E2|split; [exact E1|split]]].
  - rewrite <- (length_map title), E2. apply length_map.
  - rewrite E1. apply chapter_files_distinct.
  - rewrite E1. intros Hin. apply in_map_iff in Hin as (k & E & _).
    apply (f_equal (@hd ascii "x"%char)) in E. cbn in E. discriminate E.
Qed.

(** X17: the structuring steps of [convert] never raise: for every
    extracted text a book is built.  Its table of contents is the
    introduction, if one was made from the front matter, followed by the
    chapter items in the order of detection, titled by the detected
    chapter names; its spine is the navigation placeholder followed by
    the same items in the same order. *)
Theorem convert_text_reading_order (pdf_text : str) :
  exists b chapters front,
    _detect_chapters (_merge_split_lines (splitlines pdf_text)) = Some (chapters, front) /\
    convert_text pdf_text = Some b /\
    intro_chapter b = _add_intro_to_epub front /\
    map title (chapter_items b) = map snd chapters /\
    toc b = optional (intro_chapter b) ++ chapter_items b /\
    spine b = SpineNav :: map SpineItem (toc b).
Proof.
  unfold convert_text. rewrite detect_chapters_result.
  eexists. eexists. eexists. split; [reflexivity|].
  cbn [_build_navigation]. split; [reflexivity|]. cbn [intro_chapter chapter_items toc spine].
  split; [reflexivity|]. split.
  - unfold _add_chapters_to_epub. apply render_from_files.
  - split; [reflexivity|]. cbn [app]. now rewrite map_app.
Qed.

Lemma merge_heading_first (s : str) (rest : list str) :
  is_heading (_strip_tags (strip s)) = true ->
  exists x, _merge_split_lines (s :: rest) = NL :: x.
Proof.
  intros H. unfold _merge_split_lines. rewrite merge_from_cons.
  unfold merge_init. rewrite merge_step_heading by assumption.
  cbn [nonempty app].
  destruct (merge_from_extends rest (NL :: strip s ++ [NL], true)) as [post E].
  rewrite E. cbn [fst app]. now eexists.
Qed.

Lemma heading_at_blank (more : list str) : heading_at ([] :: more) 0 = false.
Proof. unfold heading_at. cbn [nth]. apply is_heading_nil. Qed.

Lemma first_boundary_positive (more : list str) :
  hd 0 (boundaries ([] :: more)) <> 0.
Proof.
  unfold boundaries. pose proof (scan_headings ([] :: more)) as H.
  destruct (start_indices (scan ([] :: more))) as [|j js]; cbn [app hd].
  - discriminate.
  - inversion H as [|? ? Hj _]; subst. intros ->.
    rewrite heading_at_blank in Hj. discriminate.
Qed.

(** X18: when the first non-blank line of the extracted text is a
    heading, the book still gets an introduction.  The merged text then
    begins with a newline, its first line is blank and is never a chapter
    start, so the front matter handed to [_add_intro_to_epub] is not
    empty, begins with a blank line, and an item titled "Introduction"
    is made and placed first in the table of contents. *)
Theorem heading_first_still_gives_intro (pdf_text : str) (s : str) (rest : list str) :
  nonblank_lines (splitlines pdf_text) = s :: rest ->
  is_heading (_strip_tags s) = true ->
  exists b chapters more item,
    convert_text pdf_text = Some b /\
    _detect_chapters (_merge_split_lines (splitlines pdf_text)) =
      Some (chapters, [] :: more) /\
    intro_chapter b = Some item /\
    title item = py "Introduction" /\
    hd_error (toc b) = Some item.
Proof.
  intros Hl Hs.
  assert (Hstrip : strip s = s).
  { assert (In s (nonblank_lines (splitlines pdf_text))) as Hin
      by (rewrite Hl; now left).
    unfold nonblank_lines in Hin. apply filter_In in Hin as [Hin _].
    apply in_map_iff in Hin as (l & <- & _). apply strip_idem. }
  assert (Hm : exists x, _merge_split_lines (splitlines pdf_text) = NL :: x).
  { rewrite (merge_ignores_blank_lines_aux (splitlines pdf_text) (s :: rest)).
    - apply merge_heading_first. now rewrite Hstrip.
    - rewrite Hl. symmetry. rewrite <- Hl. apply nonblank_lines_fixed. }
  destruct Hm as [x Hm].
  unfold convert_text. rewrite detect_chapters_result, Hm.
  cbn [splitlines]. rewrite is_linebreak_NL. change (eqc NL CR) with false.
  cbn iota. set (more := splitlines x).
  pose proof (first_boundary_positive more) as Hb.
  destruct (hd 0 (boundaries ([] :: more))) as [|k] eqn:K; [congruence|].
  cbn [firstn].
  eexists. eexists. exists (firstn k more). eexists.
  split; [reflexivity|]. split; [reflexivity|].
  cbn [_build_navigation intro_chapter toc].
  unfold _add_intro_to_epub. cbn [nonempty_list negb optional app hd_error title].
  repeat split.
Qed.

Lemma heading_first_still_gives_intro_witness :
  exists b chapters more item,
    convert_text (py "Chapter 1" ++ NL :: py "It began.") = Some b /\
    _detect_chapters
      (_merge_split_lines (splitlines (py "Chapter 1" ++ NL :: py "It began."))) =
      Some (chapters, [] :: more) /\
    intro_chapter b = Some item /\
    title item = py "Introduction" /\
    hd_error (toc b) = Some item.
Proof.
  apply (heading_first_still_gives_intro
           (py "Chapter 1" ++ NL :: py "It began.") (py "Chapter 1") [py "It began."]).
  - vm_compute. reflexivity.
  - vm_compute. reflexivity.
Defined.

(** ** What the returned chapter texts keep *)

Lemma splitlines_no_linebreak (s : str) :
  forallb no_linebreak (splitlines s) = true.
Proof.
  assert (G : forall n s, length s <= n -> forallb no_linebreak (splitlines s) = true).
  { induction n as [|n IH]; intros [|c r] Hn; try reflexivity; simpl in Hn; [lia|].
    cbn [splitlines]. destruct (is_linebreak c) eqn:Hc.
    - cbn [forallb no_linebreak andb].
      destruct (eqc c CR).
      + destruct r as [|d r']; [reflexivity|].
        destruct (eqc d NL); apply IH; simpl in *; lia.
      + apply IH. lia.
    - pose proof (IH r ltac:(lia)) as H.
      destruct (splitlines r) as [|l ls]; cbn [forallb no_linebreak] in *;
        rewrite Hc; cbn [negb andb]; [reflexivity | exact H]. }
  now apply (G (length s)).
Qed.

Lemma forallb_firstn (A : Type) (f : A -> bool) (n : nat) (l : list A) :
  forallb f l = true -> forallb f (firstn n l) = true.
Proof.
  revert l. induction n as [|n IH]; intros [|x l] H; try reflexivity.
  cbn [firstn forallb] in *. apply andb_prop in H as [H1 H2].
  now rewrite H1, IH.
Qed.

Lemma forallb_skipn (A : Type) (f : A -> bool) (n : nat) (l : list A) :
  forallb f l = true -> forallb f (skipn n l) = true.
Proof.
  revert l. induction n as [|n IH]; intros [|x l] H; try reflexivity; [exact H|].
  cbn [skipn forallb] in *. apply andb_prop in H as [_ H2]. now apply IH.
Qed.

(** White space before a text adds no non-blank line. *)
Lemma nonblank_space_first (c : ascii) (r : str) :
  is_space c = true ->
  nonblank_lines (splitlines (c :: r)) = nonblank_lines (splitlines r).
Proof.
  intros Hc. cbn [splitlines]. destruct (is_linebreak c).
  - rewrite nonblank_lines_cons. change (strip []) with (@nil ascii).
    cbn [nonempty]. destruct (eqc c CR); [|reflexivity].
    destruct r as [|d r']; [reflexivity|].
    destruct (eqc d NL) eqn:Hd; [|reflexivity].
    apply eqc_true in Hd. subst d. cbn [splitlines]. rewrite is_linebreak_NL.
    now rewrite nonblank_lines_cons.
  - destruct (splitlines r) as [|l ls].
    + unfold nonblank_lines, strip. cbn [map lstrip]. rewrite Hc. reflexivity.
    + rewrite !nonblank_lines_cons. unfold strip. cbn [lstrip]. now rewrite Hc.
Qed.

Lemma strip_space_last (l : str) (c : ascii) :
  is_space c = true -> strip (l ++ [c]) = strip l.
Proof.
  intros Hc. unfold strip. destruct (lstrip l) as [|x u] eqn:E.
  - rewrite lstrip_app_blank by assumption. cbn [lstrip]. now rewrite Hc.
  - rewrite lstrip_app_keeps by congruence. rewrite E.
    unfold rstrip. rewrite rev_app_distr. cbn [rev app lstrip]. now rewrite Hc.
Qed.

Lemma line_added_blank (c : ascii) (x y : list str) :
  line_added c x y -> line_added c ([] :: x) ([] :: y).
Proof.
  intros [->|[->|[->|(init & l & -> & ->)]]].
  - now left.
  - right. now left.
  - right. right. now left.
  - right. right. right. exists ([] :: init), l. auto.
Qed.

Lemma line_added_first (c d : ascii) (x y : list str) :
  line_added c x y -> line_added c (first_line_cons d x) (first_line_cons d y).
Proof.
  intros [->|[->|[->|(init & l & -> & ->)]]].
  - now left.
  - destruct y as [|l ls]; [now left | right; now left].
  - destruct y as [|l ls].
    + right. right. right. exists [], [d]. auto.
    + right. right. now left.
  - right. right. right. destruct init as [|i init].
    + exists [], (d :: l). auto.
    + exists ((d :: i) :: init), l. auto.
Qed.

(** One more character at the end of a text changes its last line, or
    adds a line. *)
Lemma splitlines_last_char (c : ascii) (n : nat) :
  forall a, length a <= n -> line_added c (splitlines (a ++ [c])) (splitlines a).
Proof.
  assert (One : line_added c (splitlines [c]) []).
  { cbn [splitlines]. destruct (is_linebreak c).
    - right. left. now destruct (eqc c CR).
    - right. right. now left. }
  induction n as [|n IH]; intros a Hn.
  - destruct a; [exact One | simpl in Hn; lia].
  - destruct a as [|d a]; [exact One|].
    simpl in Hn. cbn [app splitlines].
    destruct (is_linebreak d).
    + destruct (eqc d CR).
      * destruct a as [|e a].
        -- cbn [app]. destruct (eqc c NL); [now left|].
           apply line_added_blank. exact One.
        -- cbn [app]. destruct (eqc e NL).
           ++ apply line_added_blank, IH. simpl in Hn. lia.
           ++ apply line_added_blank. apply (IH (e :: a)). simpl in *. lia.
      * apply line_added_blank, IH. lia.
    + apply (line_added_first c d), IH. lia.
Qed.

Lemma nonblank_line_added (c : ascii) (x y : list str) :
  is_space c = true -> line_added c x y -> nonblank_lines x = nonblank_lines y.
Proof.
  intros Hc [->|[->|[->|(init & l & -> & ->)]]].
  - reflexivity.
  - rewrite nonblank_lines_app. apply app_nil_r.
  - assert (E : nonblank_lines [[c]] = [])
      by (unfold nonblank_lines, strip; cbn [map lstrip]; now rewrite Hc).
    rewrite nonblank_lines_app, E. apply app_nil_r.
  - rewrite !nonblank_lines_app. f_equal.
    unfold nonblank_lines. cbn [map filter]. now rewrite strip_space_last.
Qed.

(** White space at the two ends of a text adds no non-blank line. *)
Lemma nonblank_spaces_last (w : str) :
  forall a, forallb is_space w = true ->
            nonblank_lines (splitlines (a ++ w)) = nonblank_lines (splitlines a).
Proof.
  induction w as [|c w IH]; intros a H; [now rewrite app_nil_r|].
  cbn [forallb] in H. apply andb_prop in H as [Hc Hw].
  replace (a ++ c :: w) with ((a ++ [c]) ++ w) by now rewrite <- app_assoc.
  rewrite IH by assumption.
  apply (nonblank_line_added c); [assumption|].
  now apply (splitlines_last_char c (length a)).
Qed.

Lemma lstrip_spaces (s : str) :
  exists w, s = w ++ lstrip s /\ forallb is_space w = true.
Proof.
  induction s as [|c s (w & E & Hw)]; [now exists []|]. cbn [lstrip].
  destruct (is_space c) eqn:Hc; [|now exists []].
  exists (c :: w). cbn [app forallb]. rewrite Hc, Hw. split; [now f_equal | reflexivity].
Qed.

Lemma rstrip_spaces (s : str) :
  exists w, s = rstrip s ++ w /\ forallb is_space w = true.
Proof.
  unfold rstrip. destruct (lstrip_spaces (rev s)) as (w & E & Hw).
  exists (rev w). split.
  - rewrite <- rev_app_distr, <- E. now rewrite rev_involutive.
  - rewrite forallb_forall in *. intros x Hx. apply Hw. now apply in_rev.
Qed.

Lemma nonblank_lstrip (s : str) :
  nonblank_lines (splitlines (lstrip s)) = nonblank_lines (splitlines s).
Proof.
  induction s as [|c s IH]; [reflexivity|]. cbn [lstrip].
  destruct (is_space c) eqn:Hc; [|reflexivity].
  now rewrite nonblank_space_first.
Qed.

Lemma nonblank_strip (s : str) :
  nonblank_lines (splitlines (strip s)) = nonblank_lines (splitlines s).
Proof.
  unfold strip. destruct (rstrip_spaces (lstrip s)) as (w & E & Hw).
  transitivity (nonblank_lines (splitlines (lstrip s))); [|apply nonblank_lstrip].
  set (u := lstrip s) in *. rewrite E at 2.
  now rewrite nonblank_spaces_last.
Qed.

Lemma nonblank_lines_flat_map (A : Type) (f : A -> list str) (l : list A) :
  nonblank_lines (flat_map f l) = flat_map (fun x => nonblank_lines (f x)) l.
Proof.
  induction l as [|x l IH]; [reflexivity|].
  cbn [flat_map]. now rewrite nonblank_lines_app, IH.
Qed.

Lemma forallb_spans (A : Type) (f : A -> bool) (l : list A) (bs : list nat) :
  forallb f l = true ->
  Forall (fun sp => forallb f sp = true) (spans_between l bs).
Proof.
  intros H. induction bs as [|a bs IH]; [constructor|].
  destruct bs as [|b bs]; [constructor|].
  change (spans_between l (a :: b :: bs))
    with (slice l a b :: spans_between l (b :: bs)).
  constructor; [|exact IH].
  unfold slice. now apply forallb_firstn, forallb_skipn.
Qed.

(** What a chapter text keeps of its span. *)
Lemma chapter_text_lines (sp : list str) :
  forallb no_linebreak sp = true ->
  nonblank_lines (splitlines (strip (join [NL] sp))) = nonblank_lines sp.
Proof. intros H. now rewrite nonblank_strip, nonblank_lines_of_joined. Qed.

Lemma returned_chapter_lines (spans : list (list str)) :
  Forall (fun sp => forallb no_linebreak sp = true) spans ->
  forall names, length names = length spans ->
  nonblank_lines
    (flat_map (fun chapter : str * str => splitlines (fst chapter))
       (combine (map (fun sp => strip (join [NL] sp)) spans) names)) =
  nonblank_lines (concat spans).
Proof.
  induction 1 as [|sp spans Hsp _ IH]; intros [|name names] Hl;
    try discriminate Hl; [reflexivity|].
  cbn [map combine flat_map concat fst]. rewrite !nonblank_lines_app.
  rewrite chapter_text_lines by assumption. f_equal.
  apply IH. simpl in Hl. lia.
Qed.

(** C2, as stated, fails on a reflowed text: a chapter is returned as
    its span joined and trimmed, and the empty line that the merger puts
    before the next heading is lost.  The eight lines of the text come
    back as seven, and the returned texts joined by newlines are not the
    text. *)
Lemma returned_text_counterexample :
  splitlines two_chapters =
    [[]; py "Chapter 1"; []; py "It began."; []; py "Chapter 2"; []; py "It ended."] /\
  _detect_chapters two_chapters =
    Some ([(py "Chapter 1" ++ [NL; NL] ++ py "It began.", py "Chapter 1 It began.");
           (py "Chapter 2" ++ [NL; NL] ++ py "It ended.", py "Chapter 2 It ended.")], [[]]) /\
  (forall result, _detect_chapters two_chapters = Some result ->
     returned_lines result <> splitlines two_chapters /\
     length (returned_lines result) = 7 /\
     join [NL] (snd result ++ map fst (fst result)) <> two_chapters).
Proof.
  assert (E : _detect_chapters two_chapters =
    Some ([(py "Chapter 1" ++ [NL; NL] ++ py "It began.", py "Chapter 1 It began.");
           (py "Chapter 2" ++ [NL; NL] ++ py "It ended.", py "Chapter 2 It ended.")], [[]]))
    by (vm_compute; reflexivity).
  split; [vm_compute; reflexivity|]. split; [exact E|].
  intros result H. rewrite E in H. injection H as <-.
  split; [vm_compute; discriminate|]. split; [vm_compute; reflexivity|].
  vm_compute. discriminate.
Qed.

(** C2, amended: the front-matter span and the spans of the chapters
    that [_detect_chapters] cuts are a partition of the lines of the
    input: they lie between strictly increasing boundaries, the first
    after the front matter and the last at the end of the text, so they
    are contiguous, disjoint and (the chapters') not empty, and their
    concatenation gives every line back exactly once.  The front matter
    is returned as its lines; each chapter is returned as its span
    joined by newlines and trimmed.  The trimming drops white space and
    blank lines at the two ends of a span and nothing else: the returned
    front-matter lines followed by the lines of the returned chapter
    texts hold the trimmed non-blank lines of the input, each once and in
    order. *)
Theorem detect_chapters_partition (pdf_text : str) :
  exists spans chapters front,
    chapter_spans pdf_text = Some spans /\
    _detect_chapters pdf_text = Some (chapters, front) /\
    map fst chapters = map (fun sp => strip (join [NL] sp)) spans /\
    increasing_upto (length (splitlines pdf_text))
                    (boundaries (splitlines pdf_text)) /\
    last (boundaries (splitlines pdf_text)) 0 = length (splitlines pdf_text) /\
    front = slice (splitlines pdf_text) 0 (hd 0 (boundaries (splitlines pdf_text))) /\
    spans = spans_between (splitlines pdf_text) (boundaries (splitlines pdf_text)) /\
    Forall (fun sp => sp <> []) spans /\
    front ++ concat spans = splitlines pdf_text /\
    nonblank_lines (returned_lines (chapters, front)) =
      nonblank_lines (splitlines pdf_text).
Proof.
  set (lines := splitlines pdf_text).
  pose proof (boundaries_increasing lines) as Hinc.
  pose proof (boundaries_last lines) as Hlast.
  pose proof (scan_invariant lines) as [_ Hlen].
  assert (Hbl : length (boundaries lines) = S (length (start_indices (scan lines))))
    by (unfold boundaries; rewrite length_app; simpl; lia).
  exists (spans_between lines (boundaries lines)).
  exists (combine (map (fun sp => strip (join [NL] sp))
                       (spans_between lines (boundaries lines)))
                  (original_chapter_names (scan lines))).
  exists (slice lines 0 (hd 0 (boundaries lines))).
  assert (Hnames : length (original_chapter_names (scan lines)) =
                   length (spans_between lines (boundaries lines)))
    by (rewrite spans_between_length; lia).
  assert (Cover : slice lines 0 (hd 0 (boundaries lines)) ++
                  concat (spans_between lines (boundaries lines)) = lines).
  { destruct (boundaries lines) as [|b0 bs] eqn:Eb; [simpl in Hbl; lia|].
    rewrite spans_cover by assumption.
    unfold slice. cbn [hd skipn]. rewrite Nat.sub_0_r. apply firstn_skipn. }
  unfold chapter_spans, _detect_chapters. fold lines.
  rewrite spans_by_index, chapters_by_index by lia.
  split; [reflexivity|].
  split.
  { destruct (boundaries lines) as [|b0 bs] eqn:Eb; [simpl in Hbl; lia|].
    unfold slice. cbn [hd skipn]. now rewrite Nat.sub_0_r. }
  split.
  { apply map_fst_combine_same. rewrite length_map. lia. }
  split; [exact Hinc|]. split; [exact Hlast|].
  split; [reflexivity|]. split; [reflexivity|].
  split.
  { destruct (boundaries lines) as [|b0 bs] eqn:Eb; [simpl in Hbl; lia|].
    now apply spans_nonempty. }
  split; [exact Cover|].
  unfold returned_lines. cbn [fst snd].
  rewrite nonblank_lines_app, returned_chapter_lines.
  - now rewrite <- nonblank_lines_app, Cover.
  - apply forallb_spans. apply splitlines_no_linebreak.
  - exact Hnames.
Qed.
